(** * bot-dsplacas: plate validation, tiered cache and lookup with fallback

    A shallow embedding of [src/__main__.py]: the plate validator
    ([PlateValidator]), the three [TTLCache] tiers, the lookup
    orchestrator ([APIConsultor]) and the two Telegram entry points
    ([handle_message], [handle_inline_query]), followed by the properties
    proved about them.

    Conventions of the embedding.
    - A Python [str] is a Rocq [string], a sequence of 8-bit characters
      that stands for a [str] of ASCII characters (codes below 128:
      plates, separators, URLs). On such text [len], [upper], [strip] and
      the regular expressions below agree with Python's. Text outside
      ASCII is not covered: there [str.upper] can change the length
      (['ß'] becomes ['SS']) and produce ASCII letters from other
      characters (['ı'] becomes ['I']), and [str.strip] removes further
      white space. A statement that depends on this carries the
      hypothesis that the text is ASCII.
    - A decoded JSON body is a [json] value; a Python [dict] with string
      keys is a [gmap string json].
    - Code that mutates the module-level caches, reads the clock or talks to
      the network runs in the monad [M]: a state monad over [World] whose
      computations end in a value or in a raised Python exception, and
      which records what the run did as a list of [Event]s.
    - The clock moves while a request or a call to the Bot API is awaited;
      the statements between two awaits read the same time. One update is
      handled at a time. *)

From stdpp Require Import base option list strings gmap pretty.
From Stdlib Require Import Ascii ZArith Lia Permutation.

#[local] Set Warnings "-register-all".

(** ** Python strings (ASCII) *)

Module PyStr.

Definition code (c : ascii) : N := N_of_ascii c.

Definition between (lo hi : N) (c : ascii) : bool :=
  (lo <=? code c)%N && (code c <=? hi)%N.

(** The characters of ASCII, the domain on which the functions of this
    module are those of Python. *)
Definition is_ascii (c : ascii) : bool := (code c <? 128)%N.

(** The characters of the class [[A-Z]]. *)
Definition is_upper (c : ascii) : bool := between 65 90 c.
(** The characters [a] to [z]. *)
Definition is_lower (c : ascii) : bool := between 97 122 c.
(** The characters of the class [[0-9]]. *)
Definition is_digit (c : ascii) : bool := between 48 57 c.

(** [str.isspace] on one ASCII character: tab, line feed, vertical tab,
    form feed, carriage return, the four separators 0x1c-0x1f, space. *)
Definition is_space (c : ascii) : bool :=
  between 9 13 c || between 28 31 c || (code c =? 32)%N.

Definition upper_char (c : ascii) : ascii :=
  if is_lower c then ascii_of_N (code c - 32) else c.

(** [s.upper()] on ASCII text: the letters [a] to [z] go to [A] to [Z]
    and every other character stays. *)
Fixpoint upper (s : string) : string :=
  match s with
  | EmptyString => EmptyString
  | String c r => String (upper_char c) (upper r)
  end.

(** [s.lstrip()] on ASCII text *)
Fixpoint lstrip (s : string) : string :=
  match s with
  | EmptyString => EmptyString
  | String c r => if is_space c then lstrip r else s
  end.

(** [s.rstrip()] on ASCII text *)
Fixpoint rstrip (s : string) : string :=
  match s with
  | EmptyString => EmptyString
  | String c r =>
      match rstrip r with
      | EmptyString => if is_space c then EmptyString else String c EmptyString
      | r' => String c r'
      end
  end.

(** [s.strip()] on ASCII text *)
Definition strip (s : string) : string := rstrip (lstrip s).

(** Keep the characters that satisfy [keep]: [re.sub] of the complement
    class by the empty string. *)
Fixpoint keep_chars (keep : ascii -> bool) (s : string) : string :=
  match s with
  | EmptyString => EmptyString
  | String c r =>
      if keep c then String c (keep_chars keep r) else keep_chars keep r
  end.

(** [len(s)], one character of ASCII text being one code point *)
Definition len (s : string) : Z := Z.of_nat (String.length s).

(** [sub in s] for two strings. *)
Fixpoint contains (sub s : string) : bool :=
  String.prefix sub s ||
  match s with
  | EmptyString => false
  | String _ r => contains sub r
  end.

(** [f"{x}"] for a value that [os.getenv] returned. *)
Definition format_opt (x : option string) : string :=
  match x with
  | Some s => s
  | None => "None"
  end.

End PyStr.

(** ** The regular expressions of [PLATE_PATTERNS]

    Every pattern of the source has the form [^ item ... item $], an item
    being a character class with an optional count [{n}].  *)

Module Re.

Inductive CharClass : Set :=
| UpperAZ   (* [A-Z] *)
| Digit09.  (* [0-9] *)

Definition in_class (cl : CharClass) (c : ascii) : bool :=
  match cl with
  | UpperAZ => PyStr.is_upper c
  | Digit09 => PyStr.is_digit c
  end.

(** A pattern [^...$] as the list of its items. *)
Definition Pattern : Set := list (CharClass * nat).

(** Consume exactly [n] characters of class [cl]. *)
Fixpoint match_repeat (cl : CharClass) (n : nat) (s : string) : option string :=
  match n with
  | O => Some s
  | S n' =>
      match s with
      | String c r => if in_class cl c then match_repeat cl n' r else None
      | EmptyString => None
      end
  end.

Fixpoint match_items (p : Pattern) (s : string) : option string :=
  match p with
  | [] => Some s
  | (cl, n) :: p' =>
      match match_repeat cl n s with
      | Some r => match_items p' r
      | None => None
      end
  end.

(** [$] matches at the end of the string and just before a final line
    feed. *)
Definition at_end (s : string) : bool :=
  match s with
  | EmptyString => true
  | String c EmptyString => (PyStr.code c =? 10)%N
  | _ => false
  end.

(** [re.match(p, s)] read as a truth value. *)
Definition re_match (p : Pattern) (s : string) : bool :=
  match match_items p s with
  | Some r => at_end r
  | None => false
  end.

End Re.

(** ** [PLATE_PATTERNS] and [PlateValidator] *)

Import Re.

(** The dictionary in insertion order, the order [.items()] yields. *)
Definition PLATE_PATTERNS : list (string * Pattern) :=
  [ ("mercosul",      [(UpperAZ, 3); (Digit09, 1); (UpperAZ, 1); (Digit09, 2)]);
    ("antiga",        [(UpperAZ, 3); (Digit09, 4)]);
    ("moto_mercosul", [(UpperAZ, 3); (Digit09, 2); (UpperAZ, 1); (Digit09, 1)]) ]%nat.

(** The loop of [validate_plate] over a table of patterns. *)
Fixpoint first_match (patterns : list (string * Pattern)) (plate : string)
  : bool * string :=
  match patterns with
  | [] => (false, "invalid")
  | (plate_type, pattern) :: rest =>
      if re_match pattern plate then (true, plate_type)
      else first_match rest plate
  end.

Definition validate_plate (plate : string) : bool * string :=
  let plate := PyStr.strip (PyStr.upper plate) in
  first_match PLATE_PATTERNS plate.

Definition normalize_plate (plate : string) : string :=
  PyStr.keep_chars (fun c => PyStr.is_upper c || PyStr.is_digit c)
    (PyStr.strip (PyStr.upper plate)).


(** ** Python values and exceptions *)

(** What [response.json()] can return. Numbers are opaque to this program;
    an integer stands for any of them. *)
Inductive json :=
| JNull
| JBool (b : bool)
| JNum (n : Z)
| JStr (s : string)
| JArr (l : list json)
| JObj (d : gmap string json).

(** The subclasses of [Exception] that occur. *)
Inductive exn :=
| TimeoutException                (* httpx.TimeoutException *)
| HTTPStatusError (status : Z)    (* httpx.HTTPStatusError, with e.response.status_code *)
| TypeError
| KeyError
| AttributeError
| OtherException (name : string). (* any other subclass of Exception *)

Inductive outcome (A : Type) :=
| Return (a : A)
| Raise (e : exn).
Arguments Return {A} a.
Arguments Raise {A} e.

Definition is_str (x : string) (v : json) : bool :=
  match v with
  | JStr s => bool_decide (s = x)
  | _ => false
  end.

(** [x in v] for a string [x]: key membership in a dict, element membership
    in a list, substring test in a string, [TypeError] otherwise. *)
Definition py_in (x : string) (v : json) : outcome bool :=
  match v with
  | JObj d => Return (bool_decide (is_Some (d !! x)))
  | JArr l => Return (existsb (is_str x) l)
  | JStr s => Return (PyStr.contains x s)
  | JNull | JBool _ | JNum _ => Raise TypeError
  end.

(** [v[k]] for a string [k]. *)
Definition py_getitem (v : json) (k : string) : outcome json :=
  match v with
  | JObj d =>
      match d !! k with
      | Some x => Return x
      | None => Raise KeyError
      end
  | _ => Raise TypeError
  end.

(** [v in l] for a list [l] of strings. *)
Definition py_in_strs (v : json) (l : list string) : bool :=
  existsb (fun x => is_str x v) l.

(** ** [cachetools.TTLCache]

    The cache as the ordered dictionary of its links, least recently used
    first. [maxsize] and [ttl] are fixed at construction and passed to the
    operations; every value has size 1. *)

Module TTLCache.

Record Link := mkLink { key : string; value : json; expires : Z }.

Abbreviation t := (list Link).

Fixpoint find (k : string) (c : t) : option Link :=
  match c with
  | [] => None
  | l :: r => if bool_decide (key l = k) then Some l else find k r
  end.

Definition remove (k : string) (c : t) : t :=
  filter (fun l => key l <> k) c.

(** [key in cache]: no reordering, no purge. *)
Definition contains (time : Z) (k : string) (c : t) : bool :=
  match find k c with
  | Some l => (time <? expires l)%Z
  | None => false
  end.

(** [cache[key]]: the link moves to the most recently used end;
    a missing or expired key raises [KeyError]. *)
Definition getitem (time : Z) (k : string) (c : t) : outcome json * t :=
  match find k c with
  | None => (Raise KeyError, c)
  | Some l =>
      let c' := remove k c ++ [l] in
      if (time <? expires l)%Z then (Return (value l), c')
      else (Raise KeyError, c')
  end.

(** [cache.expire(time)] *)
Definition expire (time : Z) (c : t) : t :=
  filter (fun l => (time < expires l)%Z) c.

(** [cache[key] = value]: purge what has expired, make room by dropping
    the least recently used links when the key is new, then store the
    value at the most recently used end with a fresh expiry. *)
Definition setitem (maxsize : nat) (ttl : Z) (time : Z) (k : string)
    (v : json) (c : t) : t :=
  let c := expire time c in
  let c :=
    match find k c with
    | Some _ => c
    | None => drop (length c + 1 - maxsize) c
    end in
  remove k c ++ [mkLink k v (time + ttl)%Z].

End TTLCache.

(** ** The world the handlers run in *)

Inductive Tier := Principal | Erros | Inline.

(** Clock readings ([time.monotonic()]) in milliseconds. *)
Definition seconds (n : Z) : Z := (n * 1000)%Z.

(** [TTLCache(maxsize=500, ttl=1800)], [TTLCache(maxsize=100, ttl=300)],
    [TTLCache(maxsize=200, ttl=600)]. *)
Definition tier_maxsize (t : Tier) : nat :=
  match t with
  | Principal => 500
  | Erros => 100
  | Inline => 200
  end.

Definition tier_ttl (t : Tier) : Z :=
  match t with
  | Principal => seconds 1800
  | Erros => seconds 300
  | Inline => seconds 600
  end.

Record World := mkWorld {
  now : Z;
  cache_principal : TTLCache.t;
  cache_erros : TTLCache.t;
  cache_inline : TTLCache.t
}.

Definition initial_world (time : Z) : World := mkWorld time [] [] [].

Definition tier_get (t : Tier) (w : World) : TTLCache.t :=
  match t with
  | Principal => cache_principal w
  | Erros => cache_erros w
  | Inline => cache_inline w
  end.

Definition tier_put (t : Tier) (c : TTLCache.t) (w : World) : World :=
  match t with
  | Principal => mkWorld (now w) c (cache_erros w) (cache_inline w)
  | Erros => mkWorld (now w) (cache_principal w) c (cache_inline w)
  | Inline => mkWorld (now w) (cache_principal w) (cache_erros w) c
  end.

Definition advance (d : N) (w : World) : World :=
  mkWorld (now w + Z.of_N d) (cache_principal w) (cache_erros w) (cache_inline w).

(** The calls the bot makes to the Bot API; each one names what is sent,
    the markup of the text is left to the presentation layer. The calls
    themselves are taken to succeed. *)
Inductive Reply :=
| FormatoInvalido                                   (* length notice of handle_message *)
| PlacaInvalida                                     (* no pattern matched *)
| Consultando (placa plate_type : string)           (* loading message *)
| ApagaConsultando                                  (* loading_msg.delete() *)
| RespostaErro (resultado : json)
| RespostaResultado (resultado : json) (plate_type : string)
| ErroInterno
| InlineAjuda                                       (* empty query *)
| InlineTamanho (query : string) (n : Z)            (* normalized length is not 7 *)
| InlineInvalida (query : string)
| InlineErroConsulta                                (* lookup raised *)
| InlineErro (resultado : json) (placa : string)
| InlineResultado (resultado : json) (placa plate_type : string).

(** What a run does, in order. *)
Inductive Event :=
| EvValidate (plate : string)        (* PlateValidator.validate_plate(plate) *)
| EvCache (t : Tier) (k : string)    (* a read or write of one cache tier *)
| EvPrincipal (placa : string)       (* consultar_api_principal(placa) *)
| EvBackup (placa : string)          (* consultar_apis_backup(placa) *)
| EvGet (url : string)               (* client.get(url) *)
| EvReply (r : Reply).

Record Response := mkResponse {
  status_code : Z;
  body : option json   (* [None]: response.json() raises *)
}.

(** One HTTP exchange: how long it took and how it ended. *)
Record Exchange := mkExchange {
  elapsed : N;
  answer : outcome Response
}.

(** The surroundings of one handler run: what each URL answers, and how
    long each call to the Bot API takes. *)
Record Env := mkEnv {
  net : string -> Exchange;
  telegram : Reply -> N
}.

(** Environment variables read at import time. *)
Record Config := mkConfig {
  API_CONSULTA_URL : option string;
  API_CONSULTA_TOKEN : option string;
  API_BACKUP_URLS : list (option string)
}.

(** ** The monad of effectful code *)

Record Run (A : Type) := mkRun {
  result : outcome A;
  final : World;
  trace : list Event
}.
Arguments mkRun {A} _ _ _.
Arguments result {A} _.
Arguments final {A} _.
Arguments trace {A} _.

Definition M (A : Type) : Type := World -> Run A.

Definition ret {A} (a : A) : M A := fun w => mkRun (Return a) w [].

Definition bind {A B} (m : M A) (f : A -> M B) : M B :=
  fun w =>
    match m w with
    | mkRun (Return a) w1 t1 =>
        match f a w1 with
        | mkRun o w2 t2 => mkRun o w2 (t1 ++ t2)
        end
    | mkRun (Raise e) w1 t1 => mkRun (Raise e) w1 t1
    end.

Notation "'do' x <- m ; k" := (bind m (fun x => k))
  (at level 10, x name, m at level 100, k at level 200).
Notation "'do' '_' <- m ; k" := (bind m (fun _ => k))
  (at level 10, m at level 100, k at level 200).

(** An expression that may raise. *)
Definition lift {A} (o : outcome A) : M A := fun w => mkRun o w [].

(** [try: m  except Exception as e: h e] *)
Definition try_except {A} (m : M A) (h : exn -> M A) : M A :=
  fun w =>
    match m w with
    | mkRun (Return a) w1 t1 => mkRun (Return a) w1 t1
    | mkRun (Raise e) w1 t1 =>
        match h e w1 with
        | mkRun o w2 t2 => mkRun o w2 (t1 ++ t2)
        end
    end.

Definition emit (e : Event) : M unit := fun w => mkRun (Return tt) w [e].

(** [f"{backup_url}/{placa}"] *)
Definition backup_request_url (backup_url placa : string) : string :=
  backup_url +:+ "/" +:+ placa.

Section Bot.

Variable cfg : Config.
Variable env : Env.

(** ** Primitive effects *)

(** [await client.get(url)] *)
Definition client_get (url : string) : M Response :=
  fun w =>
    let x := net env url in
    mkRun (answer x) (advance (elapsed x) w) [EvGet url].

(** A call to the Bot API (reply_text, delete, answer). *)
Definition send (r : Reply) : M unit :=
  fun w => mkRun (Return tt) (advance (telegram env r) w) [EvReply r].

Definition cache_contains (t : Tier) (k : string) : M bool :=
  fun w =>
    mkRun (Return (TTLCache.contains (now w) k (tier_get t w))) w [EvCache t k].

Definition cache_getitem (t : Tier) (k : string) : M json :=
  fun w =>
    let '(o, c) := TTLCache.getitem (now w) k (tier_get t w) in
    mkRun o (tier_put t c w) [EvCache t k].

Definition cache_setitem (t : Tier) (k : string) (v : json) : M unit :=
  fun w =>
    let c := TTLCache.setitem (tier_maxsize t) (tier_ttl t) (now w) k v
               (tier_get t w) in
    mkRun (Return tt) (tier_put t c w) [EvCache t k].

(** ** [httpx.Response] *)

(** [response.raise_for_status()]: raises unless the status is 2xx. *)
Definition raise_for_status (r : Response) : outcome unit :=
  if (200 <=? status_code r)%Z && (status_code r <=? 299)%Z then Return tt
  else Raise (HTTPStatusError (status_code r)).

(** [response.json()] *)
Definition response_json (r : Response) : outcome json :=
  match body r with
  | Some v => Return v
  | None => Raise (OtherException "JSONDecodeError")
  end.

(** ** [APIConsultor] *)

(** The dict literal [{"erro": erro, "message": message}]. *)
Definition failure (erro message : string) : json :=
  JObj (<["erro" := JStr erro]> (<["message" := JStr message]> ∅)).

(** [f"{API_CONSULTA_URL}/{placa}/{API_CONSULTA_TOKEN}"] *)
Definition principal_url (placa : string) : string :=
  PyStr.format_opt (API_CONSULTA_URL cfg) +:+ "/" +:+ placa +:+ "/"
  +:+ PyStr.format_opt (API_CONSULTA_TOKEN cfg).

Definition consultar_api_principal (placa : string) : M json :=
  do _ <- emit (EvPrincipal placa);
  let url := principal_url placa in
  try_except
    (do response <- client_get url;
     if (status_code response =? 402)%Z then
       ret (failure "payment_required"
              "⚠️ Serviço temporariamente indisponível - Créditos esgotados")
     else if (status_code response =? 404)%Z then
       ret (failure "not_found" "🔍 Placa não encontrada na base de dados")
     else if (status_code response =? 429)%Z then
       ret (failure "rate_limit" "⏱️ Muitas consultas. Aguarde alguns segundos")
     else
       do _ <- lift (raise_for_status response);
       lift (response_json response))
    (fun e =>
       match e with
       | TimeoutException => ret (failure "timeout" "⏱️ Timeout na consulta")
       | HTTPStatusError status =>
           ret (failure "http_error" ("❌ Erro HTTP: " +:+ pretty status))
       | _ => ret (failure "api_error" "❌ Erro na consulta")
       end).

(** The body of the [for] loop of [consultar_apis_backup] for one
    configured URL: [Some v] when it returns [v], [None] when the loop
    goes on. *)
Definition backup_attempt (backup_url placa : string) : M (option json) :=
  try_except
    (let url := backup_request_url backup_url placa in
     do response <- client_get url;
     if (status_code response =? 200)%Z then
       do v <- lift (response_json response);
       ret (Some v)
     else ret None)
    (fun _ => ret None).

(** [not backup_url]: unset, or set to the empty string. *)
Definition falsy (backup_url : option string) : bool :=
  match backup_url with
  | None => true
  | Some s => bool_decide (s = "")
  end.

Fixpoint backup_loop (urls : list (option string)) (placa : string) : M json :=
  match urls with
  | [] =>
      ret (failure "all_apis_failed" "❌ Todas as APIs de backup falharam")
  | backup_url :: rest =>
      if falsy backup_url then backup_loop rest placa
      else
        do r <- backup_attempt (PyStr.format_opt backup_url) placa;
        match r with
        | Some v => ret v
        | None => backup_loop rest placa
        end
  end.

Definition consultar_apis_backup (placa : string) : M json :=
  do _ <- emit (EvBackup placa);
  backup_loop (API_BACKUP_URLS cfg) placa.

(** The failure kinds after which the backups are tried. *)
Definition FALLBACK_ERROS : list string :=
  ["payment_required"; "api_error"; "timeout"; "http_error"].

(** ["erro" in resultado and resultado["erro"] in [...]] *)
Definition wants_fallback (resultado : json) : outcome bool :=
  match py_in "erro" resultado with
  | Return true =>
      match py_getitem resultado "erro" with
      | Return e => Return (py_in_strs e FALLBACK_ERROS)
      | Raise x => Raise x
      end
  | Return false => Return false
  | Raise x => Raise x
  end.

Definition consultar_placa (placa : string) : M json :=
  let cache_key := "placa_" +:+ placa in
  do hit <- cache_contains Principal cache_key;
  if hit then cache_getitem Principal cache_key
  else
    let error_key := "error_" +:+ placa in
    do hit <- cache_contains Erros error_key;
    if hit then cache_getitem Erros error_key
    else
      do resultado <- consultar_api_principal placa;
      do fallback <- lift (wants_fallback resultado);
      if fallback then
        do resultado_backup <- consultar_apis_backup placa;
        do erro <- lift (py_in "erro" resultado_backup);
        if negb erro then
          do _ <- cache_setitem Principal cache_key resultado_backup;
          ret resultado_backup
        else
          do _ <- cache_setitem Erros error_key resultado;
          ret resultado
      else
        do erro <- lift (py_in "erro" resultado);
        do _ <- (if erro then cache_setitem Erros error_key resultado
                 else cache_setitem Principal cache_key resultado);
        ret resultado.

(** ** The entry points *)

Definition validate (placa : string) : M (bool * string) :=
  do _ <- emit (EvValidate placa);
  ret (validate_plate placa).

(** The attribute lookup [resultado.get]: dicts have the method, lists
    and strings do not. *)
Definition get_method (resultado : json) : outcome unit :=
  match resultado with
  | JObj _ => Return tt
  | _ => Raise AttributeError
  end.

(** [formatar_mensagem_otimizada(resultado, plate_type)], up to the text
    it returns. On a dict it returns a message: the formatted record, or,
    when something in its [try] raises, the notice built in its [except]
    branch. On anything else the first [resultado.get] raises in the
    [try], and the [resultado.get] of the [except] branch raises again,
    out of the function. *)
Definition formatar_mensagem_otimizada (resultado : json) (plate_type : string)
  : outcome unit :=
  get_method resultado.

(** The end of the [try] block of [handle_message]: the failure's message
    or the formatted record. *)
Definition responder_mensagem (resultado : json) (plate_type : string) : M unit :=
  do erro <- lift (py_in "erro" resultado);
  if erro then
    do _ <- lift (get_method resultado);
    send (RespostaErro resultado)
  else
    do _ <- lift (formatar_mensagem_otimizada resultado plate_type);
    send (RespostaResultado resultado plate_type).

(** [text] is [update.message.text], [None] when there is no message or
    no text. *)
Definition handle_message (text : option string) : M unit :=
  match text with
  | None => ret tt
  | Some EmptyString => ret tt
  | Some text =>
      let user_input := PyStr.strip text in
      let placa := normalize_plate user_input in
      if negb ((7 <=? PyStr.len user_input)%Z && (PyStr.len user_input <=? 8)%Z)
      then send FormatoInvalido
      else
        do v <- validate placa;
        let '(is_valid, plate_type) := v in
        if negb is_valid then send PlacaInvalida
        else
          do _ <- send (Consultando placa plate_type);
          try_except
            (do resultado <- consultar_placa placa;
             do _ <- send ApagaConsultando;
             responder_mensagem resultado plate_type)
            (fun _ =>
               do _ <- send ApagaConsultando;
               send ErroInterno)
  end.

(** The end of [handle_inline_query], outside any [try]: the error
    article or the result article, built with [resultado.get] and, for
    the result, with [formatar_mensagem_otimizada]. *)
Definition responder_inline (resultado : json) (placa plate_type : string)
  : M unit :=
  do erro <- lift (py_in "erro" resultado);
  if erro then
    do _ <- lift (get_method resultado);
    send (InlineErro resultado placa)
  else
    do _ <- lift (get_method resultado);
    do _ <- lift (formatar_mensagem_otimizada resultado plate_type);
    send (InlineResultado resultado placa plate_type).

(** [query] is [update.inline_query.query], [None] when the update has
    no inline query. *)
Definition handle_inline_query (query : option string) : M unit :=
  match query with
  | None => ret tt
  | Some query =>
      let query := PyStr.strip query in
      match query with
      | EmptyString => send InlineAjuda
      | _ =>
          let placa := normalize_plate query in
          if negb (PyStr.len placa =? 7)%Z
          then send (InlineTamanho query (PyStr.len placa))
          else
            do v <- validate placa;
            let '(is_valid, plate_type) := v in
            if negb is_valid then send (InlineInvalida query)
            else
              let inline_cache_key := "inline_" +:+ placa in
              do hit <- cache_contains Inline inline_cache_key;
              if hit then
                do resultado <- cache_getitem Inline inline_cache_key;
                responder_inline resultado placa plate_type
              else
                do looked <- try_except
                    (do resultado <- consultar_placa placa;
                     do erro <- lift (py_in "erro" resultado);
                     do _ <- (if negb erro
                              then cache_setitem Inline inline_cache_key resultado
                              else ret tt);
                     ret (Some resultado))
                    (fun _ =>
                       do _ <- send InlineErroConsulta;
                       ret None);
                match looked with
                | Some resultado => responder_inline resultado placa plate_type
                | None => ret tt
                end
      end
  end.

End Bot.

(** ** [escape_markdown_v2] *)

(** What the callers pass: [None], a string or an integer. *)
Inductive MdText :=
| MdNone
| MdStr (s : string)
| MdInt (n : Z).

(** [s.replace(old, new)] for a pattern [old] of one character. *)
Fixpoint replace_char (old : ascii) (new : string) (s : string) : string :=
  match s with
  | EmptyString => EmptyString
  | String c r =>
      if Ascii.eqb c old then new +:+ replace_char old new r
      else String c (replace_char old new r)
  end.

(** The raw string literal [r'_*[]()~`>#+-=|{}.!']. *)
Definition escape_chars : string := "_*[]()~`>#+-=|{}.!".

(** The loop [for char_to_escape in escape_chars], whose body replaces
    the character by [f'{char_to_escape}']. *)
Fixpoint escape_each (chars : string) (text : string) : string :=
  match chars with
  | EmptyString => text
  | String char_to_escape rest =>
      escape_each rest
        (replace_char char_to_escape (String char_to_escape EmptyString) text)
  end.

Definition escape_markdown_v2 (text : MdText) : string :=
  match text with
  | MdNone => ""
  | MdStr s =>
      let text := replace_char "\" "\" s in
      escape_each escape_chars text
  | MdInt n =>
      let text := pretty n in
      let text := replace_char "\" "\" text in
      escape_each escape_chars text
  end.

(** ** Vocabulary of the statements *)

(** Every character of [s] satisfies [p]. *)
Fixpoint all_chars (p : ascii -> bool) (s : string) : bool :=
  match s with
  | EmptyString => true
  | String c r => p c && all_chars p r
  end.

(** An upper-case alphanumeric character. *)
Definition is_alnum_upper (c : ascii) : bool :=
  PyStr.is_upper c || PyStr.is_digit c.

(** [s] is, character by character, of the classes [cls]. *)
Fixpoint has_shape (cls : list CharClass) (s : string) : bool :=
  match cls, s with
  | [], EmptyString => true
  | cl :: cls', String c r => in_class cl c && has_shape cls' r
  | _, _ => false
  end.

(** Three letters and four digits. *)
Definition shape_antiga : list CharClass :=
  [UpperAZ; UpperAZ; UpperAZ; Digit09; Digit09; Digit09; Digit09].
(** Three letters, a digit, a letter, two digits. *)
Definition shape_mercosul : list CharClass :=
  [UpperAZ; UpperAZ; UpperAZ; Digit09; UpperAZ; Digit09; Digit09].
(** Three letters, two digits, a letter, a digit. *)
Definition shape_moto_mercosul : list CharClass :=
  [UpperAZ; UpperAZ; UpperAZ; Digit09; Digit09; UpperAZ; Digit09].

(** The types of the patterns that match [plate]. *)
Definition matching (patterns : list (string * Pattern)) (plate : string)
  : list (string * Pattern) :=
  List.filter (fun tp => re_match tp.2 plate) patterns.

(** The failure kinds, and the string each one is in an ["erro"] field. *)
Inductive FailureKind :=
| timeout | not_found | rate_limited | payment_required | http_error
| upstream_error | all_sources_failed.

Definition erro_of (k : FailureKind) : string :=
  match k with
  | timeout => "timeout"
  | not_found => "not_found"
  | rate_limited => "rate_limit"
  | payment_required => "payment_required"
  | http_error => "http_error"
  | upstream_error => "api_error"
  | all_sources_failed => "all_apis_failed"
  end.

(** A dict whose ["erro"] field is the string of kind [k]. *)
Definition failure_of_kind (k : FailureKind) (v : json) : Prop :=
  exists d, v = JObj d /\ d !! "erro" = Some (JStr (erro_of k)).

(** The program's own test for a failure, ["erro" in v], and for a record,
    ["erro" not in v]. *)
Definition is_failure (v : json) : Prop := py_in "erro" v = Return true.
Definition is_record (v : json) : Prop := py_in "erro" v = Return false.

(** The status is 2xx. *)
Definition is_success (status : Z) : bool :=
  (200 <=? status)%Z && (status <=? 299)%Z.

(** What one backup contributes to the scan: the decoded body of an answer
    with status 200, nothing otherwise. *)
Definition backup_body (x : Exchange) : option json :=
  match answer x with
  | Return r => if (status_code r =? 200)%Z then body r else None
  | Raise _ => None
  end.

(** The backups that are configured, in the order of [API_BACKUP_URLS]. *)
Definition configured_of (urls : list (option string)) : list string :=
  omap (fun u => if falsy u then None else u) urls.

Definition configured (cfg : Config) : list string :=
  configured_of (API_BACKUP_URLS cfg).

(** The request that goes to each of the backups [us]. *)
Definition backup_requests (us : list string) (placa : string) : list Event :=
  map (fun u => EvGet (backup_request_url u placa)) us.

(** The scan of the backups [us]: the backups it sends a request to, in
    order, and the body it stops on, if any. *)
Fixpoint scan (env : Env) (us : list string) (placa : string)
  : list string * option json :=
  match us with
  | [] => ([], None)
  | u :: rest =>
      match backup_body (net env (backup_request_url u placa)) with
      | Some v => ([u], Some v)
      | None => let '(q, o) := scan env rest placa in (u :: q, o)
      end
  end.

(** The time the requests to the backups [us] take together. *)
Definition elapsed_total (env : Env) (us : list string) (placa : string) : N :=
  foldr (fun u acc => (elapsed (net env (backup_request_url u placa)) + acc)%N)
    0%N us.

(** The dict returned when the scan runs out of backups. *)
Definition all_apis_failed : json :=
  failure "all_apis_failed" "❌ Todas as APIs de backup falharam".

(** The value under key [k] in tier [t] if it is there and has not
    expired at the time of [w]. *)
Definition cached (t : Tier) (k : string) (w : World) : option json :=
  match TTLCache.find k (tier_get t w) with
  | Some l => if (now w <? TTLCache.expires l)%Z then Some (TTLCache.value l) else None
  | None => None
  end.

(** The keys of an identifier in the results and failures tiers. *)
Definition cache_key (placa : string) : string := "placa_" +:+ placa.
Definition error_key (placa : string) : string := "error_" +:+ placa.
Definition inline_cache_key (placa : string) : string := "inline_" +:+ placa.

(** The world after a read [cache[k]] on tier [t]. *)
Definition touch (t : Tier) (k : string) (w : World) : World :=
  tier_put t (TTLCache.getitem (now w) k (tier_get t w)).2 w.

(** The world after [cache[k] = v] on tier [t]. *)
Definition store (t : Tier) (k : string) (v : json) (w : World) : World :=
  tier_put t
    (TTLCache.setitem (tier_maxsize t) (tier_ttl t) (now w) k v (tier_get t w)) w.

(** The events of a lookup that finds nothing in the two tiers, up to the
    answer of the primary adapter. *)
Definition prelude (cfg : Config) (placa : string) : list Event :=
  [EvCache Principal (cache_key placa); EvCache Erros (error_key placa);
   EvPrincipal placa; EvGet (principal_url cfg placa)].

(** The run returns a failure of kind [k]. *)
Definition returns_kind (k : FailureKind) (r : Run json) : Prop :=
  exists v, result r = Return v /\ failure_of_kind k v.

(** The primary's failure is one after which the backups are tried. *)
Definition source_unavailable (v : json) : Prop :=
  failure_of_kind payment_required v \/ failure_of_kind upstream_error v \/
  failure_of_kind timeout v \/ failure_of_kind http_error v.

(** The exchange ends in an answer with status 200. *)
Definition responds_200 (x : Exchange) : Prop :=
  exists resp, answer x = Return resp /\ status_code resp = 200%Z.

(** An adapter was invoked or a request was sent. *)
Definition is_adapter_event (e : Event) : bool :=
  match e with
  | EvPrincipal _ | EvBackup _ | EvGet _ => true
  | _ => false
  end.

(** Every value in the inline tier passes the program's test for a
    record. *)
Definition inline_records (w : World) : Prop :=
  Forall (fun l => is_record (TTLCache.value l)) (cache_inline w).

(** What Telegram delivers to the bot. *)
Inductive Update :=
| Message (text : option string)
| InlineQuery (query : option string).

Definition handle (cfg : Config) (env : Env) (u : Update) : M unit :=
  match u with
  | Message text => handle_message cfg env text
  | InlineQuery query => handle_inline_query cfg env query
  end.

(** The worlds the bot can be in: it starts with empty caches, time
    passes, and updates are handled one after the other. *)
Inductive reachable (cfg : Config) : World -> Prop :=
| reach_start time : reachable cfg (initial_world time)
| reach_wait w d : reachable cfg w -> reachable cfg (advance d w)
| reach_handle w env u :
    reachable cfg w -> reachable cfg (final (handle cfg env u w)).

(** [m] keeps the property [P] of the world, however it ends. *)
Definition preserves {A} (P : World -> Prop) (m : M A) : Prop :=
  forall w, P w -> P (final (m w)).

(** No adapter takes part in the run. *)
Definition no_adapter {A} (r : Run A) : Prop :=
  Forall (fun e => is_adapter_event e = false) (trace r).

(** The classes of a pattern, one per character it consumes. *)
Definition expand (p : Pattern) : list CharClass :=
  concat (map (fun item => replicate item.2 item.1) p).

(** Consume one character per class of [cls]; what is left of [s]. *)
Fixpoint split_shape (cls : list CharClass) (s : string) : option string :=
  match cls with
  | [] => Some s
  | cl :: cls' =>
      match s with
      | String c r => if in_class cl c then split_shape cls' r else None
      | EmptyString => None
      end
  end.

Fixpoint last_char (s : string) : option ascii :=
  match s with
  | EmptyString => None
  | String c EmptyString => Some c
  | String _ r => last_char r
  end.

(** The shape that goes with each plate type. *)
Definition shape_of (plate_type : string) : option (list CharClass) :=
  if bool_decide (plate_type = "antiga") then Some shape_antiga
  else if bool_decide (plate_type = "mercosul") then Some shape_mercosul
  else if bool_decide (plate_type = "moto_mercosul") then Some shape_moto_mercosul
  else None.

(** A decoded body that is a JSON object. *)
Definition is_dict (v : json) : Prop := exists d, v = JObj d.



(** The URLs requested in a trace, in order. *)
Definition requests (t : list Event) : list string :=
  omap (fun e => match e with EvGet url => Some url | _ => None end) t.

(** The replies sent in a trace, in order. *)
Definition replies (t : list Event) : list Reply :=
  omap (fun e => match e with EvReply r => Some r | _ => None end) t.

(** The plates for which an adapter was invoked in a trace. *)
Definition looked_up (t : list Event) : list string :=
  omap (fun e => match e with
                 | EvPrincipal p | EvBackup p => Some p
                 | _ => None
                 end) t.

(** All the requests a lookup of [placa] can send, in the order it sends
    them. *)
Definition request_plan (cfg : Config) (placa : string) : list string :=
  principal_url cfg placa
  :: map (fun u => backup_request_url u placa) (configured cfg).

(** The results tier holds records only, the failures tier failures
    only. *)
Definition tiers_sorted (w : World) : Prop :=
  Forall (fun l => is_record (TTLCache.value l)) (cache_principal w) /\
  Forall (fun l => is_failure (TTLCache.value l)) (cache_erros w).

(** No tier holds more entries than its [maxsize]. *)
Definition within_capacity (w : World) : Prop :=
  forall t, (length (tier_get t w) <= tier_maxsize t)%nat.

(** The replies that end the handling of a message. *)
Definition closes_message (r : Reply) : bool :=
  match r with
  | FormatoInvalido | PlacaInvalida | RespostaErro _ | RespostaResultado _ _
  | ErroInterno => true
  | _ => false
  end.

(** Every event of every run of [m] satisfies [Q]. *)
Definition emits {A} (Q : Event -> Prop) (m : M A) : Prop :=
  forall w, Forall Q (trace (m w)).

(** The events a lookup of [placa] can produce: reads and writes of the
    caches, the two adapters invoked for [placa], and requests of its
    plan; no reply and no validation. *)
Definition lookup_event (cfg : Config) (placa : string) (e : Event) : Prop :=
  match e with
  | EvCache t _ => t <> Inline
  | EvPrincipal p | EvBackup p => p = placa
  | EvGet url => url ∈ request_plan cfg placa
  | EvValidate _ | EvReply _ => False
  end.

(** A plate as the sources expect it: seven upper-case alphanumeric
    characters that [validate_plate] accepts. *)
Definition well_formed_plate (p : string) : Prop :=
  String.length p = 7%nat /\ all_chars is_alnum_upper p = true /\
  (validate_plate p).1 = true.

(** An event that goes upstream does so for a well-formed plate. *)
Definition upstream_well_formed (cfg : Config) (e : Event) : Prop :=
  match e with
  | EvPrincipal p | EvBackup p => well_formed_plate p
  | EvGet url => exists p, well_formed_plate p /\ url ∈ request_plan cfg p
  | _ => True
  end.

(** ** Scenarios

    Small concrete surroundings on which the statements below are run. *)

Module Scenario.

(** An answer with status 200 and the JSON body [v]. *)
Definition ok (v : json) : Exchange :=
  mkExchange 120 (Return (mkResponse 200 (Some v))).

(** An answer with status [s] and a body that is not JSON. *)
Definition status (s : Z) : Exchange :=
  mkExchange 80 (Return (mkResponse s None)).

Definition timed_out : Exchange := mkExchange 15000 (Raise TimeoutException).

Definition refused : Exchange := mkExchange 5 (Raise (OtherException "ConnectError")).

(** The URLs of [table] answer as the table says, all others refuse the
    connection; a call to the Bot API takes 50 ms. *)
Definition serve (table : list (string * Exchange)) : Env :=
  mkEnv (fun url => default refused ((list_to_map table : gmap string Exchange) !! url))
        (fun _ => 50%N).

Definition cfg : Config :=
  mkConfig (Some "https://api.test/placa") (Some "tok")
           [Some "https://b1.test"; Some "https://b2.test"].

Definition principal : string := "https://api.test/placa/ABC1234/tok".
Definition b1 : string := "https://b1.test/ABC1234".
Definition b2 : string := "https://b2.test/ABC1234".

Definition civic : json :=
  JObj (<["placa" := JStr "ABC1234"]> (<["modelo" := JStr "Civic"]> ∅)).

Definition unknown_plate : json :=
  JObj (<["erro" := JStr "unknown_plate"]> ∅).

Definition timeout_failure : json :=
  failure "timeout" "⏱️ Timeout na consulta".

(** The primary answers with a record. *)
Definition primary_ok : Env := serve [(principal, ok civic)].

(** The primary answers 404. *)
Definition primary_404 : Env := serve [(principal, status 404)].

(** The primary times out and no backup is up. *)
Definition all_down : Env :=
  serve [(principal, timed_out); (b1, status 503); (b2, refused)].

(** The primary times out, the first backup is down, the second one
    answers with a record. *)
Definition second_backup_ok : Env :=
  serve [(principal, timed_out); (b1, status 503); (b2, ok civic)].

(** The primary times out, the first backup answers 200 with a failure
    body, the second one would answer with a record. *)
Definition first_backup_erro : Env :=
  serve [(principal, timed_out); (b1, ok unknown_plate); (b2, ok civic)].

(** The primary answers 200 with a body that is a JSON number. *)
Definition primary_number : Env := serve [(principal, ok (JNum 5))].

(** The primary answers 200 with a body that is the empty JSON list. *)
Definition primary_list : Env := serve [(principal, ok (JArr []))].


End Scenario.

(** * Properties *)

(** ** Characters and strings *)

Lemma alnum_upper_char c :
  is_alnum_upper c = true ->
  PyStr.upper_char c = c /\ PyStr.is_space c = false /\
  PyStr.is_digit c = negb (PyStr.is_upper c).
Proof.
  destruct c as [[] [] [] [] [] [] [] []]; vm_compute; intuition congruence.
Qed.

Lemma upper_alnum s :
  all_chars is_alnum_upper s = true -> PyStr.upper s = s.
Proof.
  induction s as [|c r IH]; simpl; [done|].
  intros [Hc Hr]%andb_prop.
  destruct (alnum_upper_char c Hc) as (-> & _ & _). by rewrite IH.
Qed.

Lemma lstrip_alnum s :
  all_chars is_alnum_upper s = true -> PyStr.lstrip s = s.
Proof.
  destruct s as [|c r]; simpl; [done|].
  intros [Hc _]%andb_prop.
  destruct (alnum_upper_char c Hc) as (_ & -> & _). done.
Qed.

Lemma rstrip_alnum s :
  all_chars is_alnum_upper s = true -> PyStr.rstrip s = s.
Proof.
  induction s as [|c r IH]; simpl; [done|].
  intros [Hc Hr]%andb_prop. rewrite (IH Hr).
  destruct (alnum_upper_char c Hc) as (_ & -> & _). by destruct r.
Qed.

Lemma strip_upper_alnum s :
  all_chars is_alnum_upper s = true -> PyStr.strip (PyStr.upper s) = s.
Proof.
  intros H. rewrite (upper_alnum s H). unfold PyStr.strip.
  by rewrite (lstrip_alnum s H), (rstrip_alnum s H).
Qed.

(** ** The validator *)

Lemma first_match_matching patterns plate :
  first_match patterns plate =
  match matching patterns plate with
  | [] => (false, "invalid")
  | (t, _) :: _ => (true, t)
  end.
Proof.
  induction patterns as [|[t p] rest IH]; simpl; [done|].
  destruct (re_match p plate); [done | apply IH].
Qed.

(** Case analysis on a seven-character upper-case alphanumeric string:
    one goal per assignment of letter or digit to each position. *)
Lemma in_class_alnum c cl :
  is_alnum_upper c = true ->
  in_class cl c = match cl with
                  | UpperAZ => PyStr.is_upper c
                  | Digit09 => negb (PyStr.is_upper c)
                  end.
Proof.
  intros Hc. destruct cl; simpl; [done|].
  by destruct (alnum_upper_char c Hc) as (_ & _ & ->).
Qed.

Ltac seven_chars s Hlen Hall :=
  do 7 (destruct s as [|? s]; [discriminate Hlen|]);
  destruct s; [|discriminate Hlen]; clear Hlen;
  simpl in Hall;
  repeat match type of Hall with
         | (_ && _) = true => apply andb_prop in Hall as [?H Hall]
         end;
  clear Hall;
  repeat match goal with
         | H : is_alnum_upper ?c = true |- _ =>
             pose proof (in_class_alnum c UpperAZ H);
             pose proof (in_class_alnum c Digit09 H);
             clear H; destruct (PyStr.is_upper c)
         end;
  cbn [negb] in *.

Ltac by_classes :=
  repeat first
    [ progress cbn [match_items match_repeat has_shape andb]
    | match goal with H : in_class _ _ = _ |- _ => rewrite H end ].

(** On an upper-case alphanumeric string of length seven, a pattern matches
    exactly the strings of its shape. *)
Lemma plate_patterns_shapes s :
  String.length s = 7%nat -> all_chars is_alnum_upper s = true ->
  matching PLATE_PATTERNS s =
  ((if has_shape shape_mercosul s
    then [("mercosul", [(UpperAZ, 3); (Digit09, 1); (UpperAZ, 1); (Digit09, 2)])]
    else [])
   ++ (if has_shape shape_antiga s
       then [("antiga", [(UpperAZ, 3); (Digit09, 4)])]
       else [])
   ++ (if has_shape shape_moto_mercosul s
       then [("moto_mercosul", [(UpperAZ, 3); (Digit09, 2); (UpperAZ, 1); (Digit09, 1)])]
       else []))%nat.
Proof.
  intros Hlen Hall.
  unfold matching, PLATE_PATTERNS, re_match, shape_mercosul, shape_antiga,
    shape_moto_mercosul.
  cbn [List.filter snd].
  seven_chars s Hlen Hall; by_classes; reflexivity.
Qed.

(** At most one of the three shapes fits. *)
Lemma shapes_exclusive s :
  String.length s = 7%nat -> all_chars is_alnum_upper s = true ->
  (has_shape shape_antiga s && has_shape shape_mercosul s = false) /\
  (has_shape shape_antiga s && has_shape shape_moto_mercosul s = false) /\
  (has_shape shape_mercosul s && has_shape shape_moto_mercosul s = false).
Proof.
  intros Hlen Hall.
  unfold shape_mercosul, shape_antiga, shape_moto_mercosul.
  seven_chars s Hlen Hall; by_classes; auto.
Qed.

Lemma matching_Permutation patterns patterns' plate :
  Permutation patterns patterns' ->
  Permutation (matching patterns plate) (matching patterns' plate).
Proof.
  unfold matching. induction 1 as [|x l l' _ IH|x y l|l l' l'' _ IH1 _ IH2]; simpl.
  - constructor.
  - destruct (re_match x.2 plate); [by constructor | done].
  - destruct (re_match x.2 plate), (re_match y.2 plate);
      (done || by constructor).
  - by etrans.
Qed.

(** C5. On every seven-character upper-case alphanumeric string,
    [validate_plate] answers [(True, 'antiga')] exactly on three letters
    followed by four digits, [(True, 'mercosul')] exactly on three letters,
    a digit, a letter and two digits, [(True, 'moto_mercosul')] exactly on
    three letters, two digits, a letter and a digit, and
    [(False, 'invalid')] exactly when none of the three shapes fits; the
    shapes exclude each other, and running the loop over any reordering of
    [PLATE_PATTERNS] gives the same answer. *)
Theorem validate_plate_classifies (s : string) :
  String.length s = 7%nat ->
  all_chars is_alnum_upper s = true ->
  (validate_plate s = (true, "antiga") <-> has_shape shape_antiga s = true) /\
  (validate_plate s = (true, "mercosul") <-> has_shape shape_mercosul s = true) /\
  (validate_plate s = (true, "moto_mercosul")
     <-> has_shape shape_moto_mercosul s = true) /\
  (validate_plate s = (false, "invalid")
     <-> has_shape shape_antiga s = false /\ has_shape shape_mercosul s = false
         /\ has_shape shape_moto_mercosul s = false) /\
  (has_shape shape_antiga s && has_shape shape_mercosul s = false /\
   has_shape shape_antiga s && has_shape shape_moto_mercosul s = false /\
   has_shape shape_mercosul s && has_shape shape_moto_mercosul s = false) /\
  (forall patterns, Permutation patterns PLATE_PATTERNS ->
     first_match patterns (PyStr.strip (PyStr.upper s)) = validate_plate s).
Proof.
  intros Hlen Hall.
  pose proof (shapes_exclusive s Hlen Hall) as Hex.
  pose proof (plate_patterns_shapes s Hlen Hall) as Hm.
  assert (Hv : validate_plate s = first_match PLATE_PATTERNS s).
  { unfold validate_plate. by rewrite (strip_upper_alnum s Hall). }
  split_and!; try apply Hex.
  1-4: rewrite Hv, first_match_matching, Hm;
       destruct (has_shape shape_antiga s), (has_shape shape_mercosul s),
         (has_shape shape_moto_mercosul s);
       simpl in *; intuition congruence.
  intros patterns Hp. rewrite Hv, (strip_upper_alnum s Hall).
  rewrite !first_match_matching.
  pose proof (matching_Permutation _ _ s Hp) as Hq. rewrite Hm in *.
  destruct (has_shape shape_antiga s), (has_shape shape_mercosul s),
    (has_shape shape_moto_mercosul s); simpl in *;
    try (destruct Hex as (? & ? & ?); discriminate).
  - symmetry in Hq. apply Permutation_length_1_inv in Hq. by rewrite Hq.
  - symmetry in Hq. apply Permutation_length_1_inv in Hq. by rewrite Hq.
  - symmetry in Hq. apply Permutation_length_1_inv in Hq. by rewrite Hq.
  - symmetry in Hq. apply Permutation_nil in Hq. by rewrite Hq.
Qed.


(** ** The adapters *)

Section Adapters.

Variable cfg : Config.
Variable env : Env.

Ltac unfold_m :=
  unfold bind, try_except, ret, lift, emit, client_get, send; simpl.

(** The primary adapter always returns, touches nothing but the clock,
    and sends exactly one request. *)
Lemma consultar_api_principal_run placa :
  exists v, forall w,
    consultar_api_principal cfg env placa w =
    mkRun (Return v)
      (advance (elapsed (net env (principal_url cfg placa))) w)
      [EvPrincipal placa; EvGet (principal_url cfg placa)].
Proof.
  unfold consultar_api_principal. unfold_m.
  destruct (answer (net env (principal_url cfg placa))) as [resp|e] eqn:Ha;
    simpl.
  - destruct (status_code resp =? 402)%Z; [eexists; intros; reflexivity|].
    destruct (status_code resp =? 404)%Z; [eexists; intros; reflexivity|].
    destruct (status_code resp =? 429)%Z; [eexists; intros; reflexivity|].
    unfold raise_for_status.
    destruct ((200 <=? status_code resp)%Z && (status_code resp <=? 299)%Z);
      simpl; [|eexists; intros; reflexivity].
    unfold response_json. destruct (body resp); simpl;
      eexists; intros; reflexivity.
  - destruct e; eexists; intros; reflexivity.
Qed.

(** One backup: a single request, and the decoded body of a 200 answer. *)
Lemma backup_attempt_run u placa w :
  backup_attempt env u placa w =
  mkRun (Return (backup_body (net env (backup_request_url u placa))))
    (advance (elapsed (net env (backup_request_url u placa))) w)
    [EvGet (backup_request_url u placa)].
Proof.
  unfold backup_attempt, backup_body. unfold_m.
  destruct (answer (net env (backup_request_url u placa))) as [resp|e]; simpl;
    [|done].
  destruct (status_code resp =? 200)%Z; simpl; [|done].
  unfold response_json. by destruct (body resp).
Qed.

End Adapters.

(** ** The caches *)

Lemma find_remove k c : TTLCache.find k (TTLCache.remove k c) = None.
Proof.
  unfold TTLCache.remove. induction c as [|l c IH]; [done|].
  rewrite filter_cons. case_decide; [|done].
  simpl. by rewrite bool_decide_false.
Qed.

Lemma find_app k c c' :
  TTLCache.find k (c ++ c') =
  match TTLCache.find k c with
  | Some l => Some l
  | None => TTLCache.find k c'
  end.
Proof.
  induction c as [|l c IH]; simpl; [done|]. by case_bool_decide.
Qed.

Lemma find_setitem maxsize ttl time k v c :
  TTLCache.find k (TTLCache.setitem maxsize ttl time k v c) =
  Some (TTLCache.mkLink k v (time + ttl)).
Proof.
  unfold TTLCache.setitem. rewrite find_app, find_remove. simpl.
  by rewrite bool_decide_true.
Qed.

Lemma tier_get_put t c w : tier_get t (tier_put t c w) = c.
Proof. by destruct t. Qed.

Lemma tier_get_put_ne t t' c w :
  t <> t' -> tier_get t (tier_put t' c w) = tier_get t w.
Proof. by destruct t, t'. Qed.

Lemma now_tier_put t c w : now (tier_put t c w) = now w.
Proof. by destruct t. Qed.

Lemma tier_ttl_pos t : (0 < tier_ttl t)%Z.
Proof. by destruct t. Qed.

(** What was just stored is there, until its time to live has passed. *)
Lemma cached_store t k v w d :
  (Z.of_N d < tier_ttl t)%Z ->
  cached t k (advance d (store t k v w)) = Some v.
Proof.
  intros Hd. unfold cached, store.
  destruct t; cbn [tier_get tier_put advance now cache_principal cache_erros
                   cache_inline];
    rewrite find_setitem; cbn [TTLCache.expires TTLCache.value];
    (rewrite (proj2 (Z.ltb_lt _ _)); [done | lia]).
Qed.

Lemma cached_store_ne t t' k k' v w d :
  t <> t' -> cached t k (advance d (store t' k' v w)) = cached t k (advance d w).
Proof. intros Hne. by destruct t, t'. Qed.

(** A key that is absent or expired stays so as time passes. *)
Lemma cached_None_advance t k w d :
  cached t k w = None -> cached t k (advance d w) = None.
Proof.
  unfold cached.
  replace (tier_get t (advance d w)) with (tier_get t w) by (by destruct t).
  destruct (TTLCache.find k (tier_get t w)) as [l|]; [|done].
  simpl. destruct (Z.ltb_spec (now w) (TTLCache.expires l)); [done|].
  intros _. rewrite (proj2 (Z.ltb_ge _ _)); [done | lia].
Qed.

Lemma contains_cached t k w :
  TTLCache.contains (now w) k (tier_get t w) = bool_decide (is_Some (cached t k w)).
Proof.
  unfold TTLCache.contains, cached.
  destruct (TTLCache.find k (tier_get t w)) as [l|]; [|done].
  destruct (now w <? TTLCache.expires l)%Z; [done|].
  rewrite bool_decide_false; [done | by intros []].
Qed.

Lemma advance_advance d d' w : advance d' (advance d w) = advance (d + d') w.
Proof. unfold advance. simpl. f_equal. lia. Qed.

Lemma advance_0 w : advance 0 w = w.
Proof. destruct w. unfold advance. simpl. f_equal. lia. Qed.

(** ** The backup scan *)

Section Scan.

Variable cfg : Config.
Variable env : Env.

(** The loop sends its requests in the order of the list, stops on the
    first 200 answer with a decodable body and returns that body, or
    the [all_apis_failed] dict when no backup gives one. *)
Lemma backup_loop_run urls placa w :
  backup_loop env urls placa w =
  mkRun
    (Return (default all_apis_failed (scan env (configured_of urls) placa).2))
    (advance (elapsed_total env (scan env (configured_of urls) placa).1 placa) w)
    (backup_requests (scan env (configured_of urls) placa).1 placa).
Proof.
  revert w. induction urls as [|u urls IH]; intros w.
  - simpl. unfold ret. by rewrite advance_0.
  - cbn [backup_loop configured_of omap list_omap].
    destruct (falsy u) eqn:Hu; [apply IH|].
    destruct u as [u|]; [|discriminate Hu].
    cbn [PyStr.format_opt scan]. unfold bind.
    rewrite backup_attempt_run. cbn [result final trace].
    fold (configured_of urls).
    destruct (backup_body (net env (backup_request_url u placa))) as [v|].
    + unfold ret. simpl. f_equal. f_equal. lia.
    + rewrite IH.
      destruct (scan env (configured_of urls) placa) as [q o]. simpl.
      by rewrite advance_advance.
Qed.

Lemma consultar_apis_backup_run placa w :
  consultar_apis_backup cfg env placa w =
  mkRun
    (Return (default all_apis_failed (scan env (configured cfg) placa).2))
    (advance (elapsed_total env (scan env (configured cfg) placa).1 placa) w)
    (EvBackup placa :: backup_requests (scan env (configured cfg) placa).1 placa).
Proof.
  unfold consultar_apis_backup, bind, emit. cbn [result final trace].
  by rewrite backup_loop_run.
Qed.

End Scan.

(** Facts about the scan. *)

Lemma scan_all_skip env us placa :
  Forall (fun u => backup_body (net env (backup_request_url u placa)) = None) us ->
  scan env us placa = (us, None).
Proof.
  induction 1 as [|u us Hu _ IH]; simpl; [done|]. by rewrite Hu, IH.
Qed.

Lemma scan_first env us u us' v placa :
  Forall (fun u => backup_body (net env (backup_request_url u placa)) = None) us ->
  backup_body (net env (backup_request_url u placa)) = Some v ->
  scan env (us ++ u :: us') placa = (us ++ [u], Some v).
Proof.
  intros Hus Hu. induction Hus as [|u0 us Hu0 _ IH]; simpl.
  - by rewrite Hu.
  - by rewrite Hu0, IH.
Qed.


(** ** The orchestrator *)

Lemma getitem_cached t k w v :
  cached t k w = Some v ->
  (TTLCache.getitem (now w) k (tier_get t w)).1 = Return v.
Proof.
  unfold cached, TTLCache.getitem.
  destruct (TTLCache.find k (tier_get t w)) as [l|]; [|done].
  destruct (now w <? TTLCache.expires l)%Z; [|done]. by intros [= ->].
Qed.

Section Lookup.

Variable cfg : Config.
Variable env : Env.

(** A fresh entry in a tier is returned as it is, with no adapter
    involved. *)
Lemma cache_getitem_hit t k w v :
  cached t k w = Some v ->
  cache_getitem t k w = mkRun (Return v) (touch t k w) [EvCache t k].
Proof.
  intros H. unfold cache_getitem, touch.
  pose proof (getitem_cached t k w v H) as Hg.
  destruct (TTLCache.getitem (now w) k (tier_get t w)) as [o c].
  simpl in *. by subst.
Qed.

Lemma consultar_placa_hit_principal placa w v :
  cached Principal (cache_key placa) w = Some v ->
  consultar_placa cfg env placa w =
  mkRun (Return v) (touch Principal (cache_key placa) w)
    [EvCache Principal (cache_key placa); EvCache Principal (cache_key placa)].
Proof.
  intros H. unfold consultar_placa, bind, cache_contains.
  cbn [result final trace]. fold (cache_key placa).
  rewrite contains_cached, H, bool_decide_true by done.
  by rewrite (cache_getitem_hit _ _ _ _ H).
Qed.

Lemma consultar_placa_hit_erros placa w v :
  cached Principal (cache_key placa) w = None ->
  cached Erros (error_key placa) w = Some v ->
  consultar_placa cfg env placa w =
  mkRun (Return v) (touch Erros (error_key placa) w)
    [EvCache Principal (cache_key placa); EvCache Erros (error_key placa);
     EvCache Erros (error_key placa)].
Proof.
  intros Hp He. unfold consultar_placa, bind, cache_contains.
  cbn [result final trace]. fold (cache_key placa) (error_key placa).
  rewrite contains_cached, Hp, bool_decide_false by (by intros []).
  cbn [result final trace].
  rewrite contains_cached, He, bool_decide_true by done.
  cbn [result final trace].
  by rewrite (cache_getitem_hit _ _ _ _ He).
Qed.

(** A lookup that finds nothing in the two tiers, step by step. *)
Lemma consultar_placa_miss placa w v :
  cached Principal (cache_key placa) w = None ->
  cached Erros (error_key placa) w = None ->
  result (consultar_api_principal cfg env placa w) = Return v ->
  let w1 := advance (elapsed (net env (principal_url cfg placa))) w in
  let q := (scan env (configured cfg) placa).1 in
  let vb := default all_apis_failed (scan env (configured cfg) placa).2 in
  let w2 := advance (elapsed_total env q placa) w1 in
  consultar_placa cfg env placa w =
  match wants_fallback v with
  | Raise e => mkRun (Raise e) w1 (prelude cfg placa)
  | Return true =>
      match py_in "erro" vb with
      | Raise e =>
          mkRun (Raise e) w2
            (prelude cfg placa ++ EvBackup placa :: backup_requests q placa)
      | Return false =>
          mkRun (Return vb) (store Principal (cache_key placa) vb w2)
            (prelude cfg placa ++ EvBackup placa :: backup_requests q placa
             ++ [EvCache Principal (cache_key placa)])
      | Return true =>
          mkRun (Return v) (store Erros (error_key placa) v w2)
            (prelude cfg placa ++ EvBackup placa :: backup_requests q placa
             ++ [EvCache Erros (error_key placa)])
      end
  | Return false =>
      match py_in "erro" v with
      | Raise e => mkRun (Raise e) w1 (prelude cfg placa)
      | Return true =>
          mkRun (Return v) (store Erros (error_key placa) v w1)
            (prelude cfg placa ++ [EvCache Erros (error_key placa)])
      | Return false =>
          mkRun (Return v) (store Principal (cache_key placa) v w1)
            (prelude cfg placa ++ [EvCache Principal (cache_key placa)])
      end
  end.
Proof.
  intros Hp He Hv w1 q vb w2.
  destruct (consultar_api_principal_run cfg env placa) as [v' Hrun].
  rewrite Hrun in Hv. injection Hv as ->.
  unfold consultar_placa, bind, cache_contains.
  cbn [result final trace]. fold (cache_key placa) (error_key placa).
  rewrite contains_cached, Hp, bool_decide_false by (by intros []).
  cbn [result final trace].
  rewrite contains_cached, He, bool_decide_false by (by intros []).
  cbn [result final trace]. rewrite Hrun. cbn [result final trace].
  unfold lift at 1. cbn [result final trace]. fold w1.
  destruct (wants_fallback v) as [[]|e]; [| |done].
  - rewrite consultar_apis_backup_run. fold q vb w2.
    unfold lift, cache_setitem, ret, store, prelude.
    destruct (py_in "erro" vb) as [[]|e]; cbn [negb app];
      rewrite ?app_nil_r; done.
  - unfold lift, cache_setitem, ret, store, prelude.
    destruct (py_in "erro" v) as [[]|e]; cbn [negb app];
      rewrite ?app_nil_r; done.
Qed.

End Lookup.

(** ** The primary adapter classifies every transport outcome *)

Lemma failure_kind k message : failure_of_kind k (failure (erro_of k) message).
Proof. eexists. split; [reflexivity|]. by rewrite lookup_insert_eq. Qed.

(** C7. The primary adapter's query is total: whatever the exchange with
    the upstream does, [consultar_api_principal] returns a value and raises
    nothing. A transport timeout gives a failure of kind timeout, status
    402 payment_required, 404 not_found, 429 rate_limited, any other status
    outside 2xx http_error; any other exception of the transport, and a
    2xx answer whose body does not decode, give upstream_error; a 2xx
    answer that decodes is returned as it is. *)
Theorem consultar_api_principal_total (cfg : Config) (env : Env)
    (placa : string) (w : World) :
  let x := net env (principal_url cfg placa) in
  let r := consultar_api_principal cfg env placa w in
  (exists v, result r = Return v) /\
  (answer x = Raise TimeoutException -> returns_kind timeout r) /\
  (forall resp, answer x = Return resp ->
     (status_code resp = 402%Z -> returns_kind payment_required r) /\
     (status_code resp = 404%Z -> returns_kind not_found r) /\
     (status_code resp = 429%Z -> returns_kind rate_limited r) /\
     (is_success (status_code resp) = false ->
      status_code resp <> 402%Z -> status_code resp <> 404%Z ->
      status_code resp <> 429%Z -> returns_kind http_error r) /\
     (is_success (status_code resp) = true -> body resp = None ->
      returns_kind upstream_error r) /\
     (forall v, is_success (status_code resp) = true -> body resp = Some v ->
      result r = Return v)) /\
  (forall e, answer x = Raise e -> e <> TimeoutException ->
     (forall status, e <> HTTPStatusError status) ->
     returns_kind upstream_error r).
Proof.
  intros x r. split.
  { destruct (consultar_api_principal_run cfg env placa) as [v Hv].
    exists v. subst r. by rewrite Hv. }
  subst x r.
  unfold consultar_api_principal, bind, try_except, emit, client_get, ret, lift,
    raise_for_status, response_json, returns_kind, is_success.
  split_and!.
  - intros ->. eexists. split; [reflexivity|]. apply (failure_kind timeout).
  - intros resp ->. split_and!.
    + intros ->. simpl. eexists. split; [reflexivity|].
      apply (failure_kind payment_required).
    + intros ->. simpl. eexists. split; [reflexivity|].
      apply (failure_kind not_found).
    + intros ->. simpl. eexists. split; [reflexivity|].
      apply (failure_kind rate_limited).
    + intros Hs H402 H404 H429.
      rewrite !(proj2 (Z.eqb_neq _ _)) by done. rewrite Hs.
      eexists. split; [reflexivity|]. apply (failure_kind http_error).
    + intros Hs Hb.
      assert (status_code resp <> 402%Z /\ status_code resp <> 404%Z /\
              status_code resp <> 429%Z) as (H402 & H404 & H429) by lia.
      rewrite !(proj2 (Z.eqb_neq _ _)) by done. rewrite Hs, Hb.
      eexists. split; [reflexivity|]. apply (failure_kind upstream_error).
    + intros v Hs Hb.
      assert (status_code resp <> 402%Z /\ status_code resp <> 404%Z /\
              status_code resp <> 429%Z) as (H402 & H404 & H429) by lia.
      rewrite !(proj2 (Z.eqb_neq _ _)) by done. by rewrite Hs, Hb.
  - intros e -> Ht Hh.
    destruct e; try done; try (by destruct (Hh status));
      (eexists; split; [reflexivity|]; apply (failure_kind upstream_error)).
Qed.

(** ** The fallback decision *)

Lemma failure_of_kind_is_failure k v : failure_of_kind k v -> is_failure v.
Proof.
  intros (d & -> & Hd). unfold is_failure. simpl.
  by rewrite Hd, bool_decide_true.
Qed.

Lemma wants_fallback_kind k v :
  failure_of_kind k v ->
  wants_fallback v = Return (bool_decide (erro_of k ∈ FALLBACK_ERROS)).
Proof.
  intros (d & -> & Hd). unfold wants_fallback. simpl.
  rewrite Hd, bool_decide_true by done. by destruct k.
Qed.

Lemma wants_fallback_spec v :
  wants_fallback v = Return true <-> source_unavailable v.
Proof.
  split.
  - unfold wants_fallback.
    destruct (py_in "erro" v) as [[]|] eqn:Hin; [|done..].
    destruct v as [| | | |l|d]; try done.
    simpl. destruct (d !! "erro") as [e|] eqn:Hd; [|done].
    intros [= He]. unfold py_in_strs, FALLBACK_ERROS in He. simpl in He.
    destruct e as [| | |s| |]; try done. simpl in He.
    unfold source_unavailable, failure_of_kind.
    repeat (case_bool_decide; [subst s; eauto 10|]). done.
  - intros [H|[H|[H|H]]]; by rewrite (wants_fallback_kind _ _ H).
Qed.

Lemma not_fallback_kinds :
  (erro_of not_found ∉ FALLBACK_ERROS) /\ (erro_of rate_limited ∉ FALLBACK_ERROS).
Proof.
  split; intros H;
    repeat (apply elem_of_cons in H as [H|H]; [discriminate H|]);
    by apply elem_of_nil in H.
Qed.

Section Fallback.

Variable cfg : Config.
Variable env : Env.

(** C1. For an identifier that is in neither the results tier nor the
    failures tier, the lookup invokes the backup adapter exactly when the
    primary's outcome is a failure of kind payment_required,
    upstream_error, timeout or http_error, and then sends its first
    request to the first configured backup; when the primary returns
    not_found or rate_limited, the run consists of the two cache checks,
    the primary's request and the write to the failures tier: no backup
    is invoked and none receives a request. *)
Theorem fallback_iff_source_unavailable (placa : string) (w : World) (v : json) :
  cached Principal (cache_key placa) w = None ->
  cached Erros (error_key placa) w = None ->
  result (consultar_api_principal cfg env placa w) = Return v ->
  let r := consultar_placa cfg env placa w in
  (EvBackup placa ∈ trace r <-> source_unavailable v) /\
  (source_unavailable v ->
   forall u us, configured cfg = u :: us ->
     exists t, trace r =
       prelude cfg placa ++ EvBackup placa
         :: EvGet (backup_request_url u placa) :: t) /\
  (failure_of_kind not_found v \/ failure_of_kind rate_limited v ->
   trace r = prelude cfg placa ++ [EvCache Erros (error_key placa)]).
Proof.
  intros Hp He Hv r. subst r.
  rewrite (consultar_placa_miss cfg env placa w v Hp He Hv).
  rewrite <- wants_fallback_spec.
  assert (Hpre : EvBackup placa ∉ prelude cfg placa).
  { unfold prelude. rewrite !not_elem_of_cons. split_and!; try done.
    apply not_elem_of_nil. }
  split_and!.
  - destruct (wants_fallback v) as [[]|e]; cbn [trace].
    + split; [done|]. intros _.
      destruct (py_in "erro" _) as [[]|]; cbn [trace];
        rewrite elem_of_app; right; by left.
    + split; [|done].
      destruct (py_in "erro" v) as [[]|]; cbn [trace]; [| |done];
        rewrite elem_of_app, list_elem_of_singleton; by intros [?|?].
    + split; done.
  - intros -> u us Hc. rewrite Hc. cbn [scan].
    destruct (backup_body (net env (backup_request_url u placa))) as [vb|].
    + cbn [fst snd backup_requests map]. simpl default.
      destruct (py_in "erro" vb) as [[]|]; cbn [trace app]; eauto.
    + destruct (scan env us placa) as [q o]. cbn [fst snd backup_requests map].
      destruct (py_in "erro" _) as [[]|]; cbn [trace app]; eauto.
  - intros [H|H]; rewrite (wants_fallback_kind _ _ H);
      rewrite bool_decide_false by apply not_fallback_kinds;
      by rewrite (failure_of_kind_is_failure _ _ H).
Qed.

End Fallback.

(** ** The outcome of the fallback *)



Section FallbackOutcome.

Variable cfg : Config.
Variable env : Env.


(** C3, as the code has it. During the fallback the backups receive
    their requests one after the other in the configured order. When
    every backup before [u] raises, answers with a status other than 200
    or with a body that does not decode, and [u] answers 200 with a
    record, the scan stops at [u]: the later backups receive nothing,
    the record is stored in the results tier and returned, and the
    primary's failure is neither returned nor stored. *)
Theorem first_backup_record_returned (placa : string) (w : World)
    (v vb : json) (us us' : list string) (u : string) :
  cached Principal (cache_key placa) w = None ->
  cached Erros (error_key placa) w = None ->
  result (consultar_api_principal cfg env placa w) = Return v ->
  source_unavailable v ->
  configured cfg = us ++ u :: us' ->
  Forall (fun u' => backup_body (net env (backup_request_url u' placa)) = None) us ->
  backup_body (net env (backup_request_url u placa)) = Some vb ->
  is_record vb ->
  let r := consultar_placa cfg env placa w in
  result r = Return vb /\
  trace r = prelude cfg placa ++ EvBackup placa
              :: backup_requests (us ++ [u]) placa
              ++ [EvCache Principal (cache_key placa)] /\
  cached Principal (cache_key placa) (final r) = Some vb /\
  cached Erros (error_key placa) (final r) = None.
Proof.
  intros Hp He Hv Hsu Hc Hus Hu Hrec r. subst r.
  rewrite (consultar_placa_miss cfg env placa w v Hp He Hv).
  rewrite (proj2 (wants_fallback_spec v) Hsu).
  rewrite Hc, (scan_first env us u us' vb placa Hus Hu).
  cbn [fst snd]. simpl default. rewrite Hrec. cbn [result final trace].
  split_and!; [done..| |].
  - rewrite <- (advance_0 (store _ _ _ _)). apply cached_store.
    apply tier_ttl_pos.
  - rewrite <- (advance_0 (store _ _ _ _)).
    rewrite cached_store_ne, advance_0 by done.
    by do 2 apply cached_None_advance.
Qed.

(** C10. The scan returns the body of the first backup that answers
    with status 200, whatever that body holds: when every configured
    backup before [u] raises or answers with another status and [u]
    answers 200 with the body [vb], the backup adapter returns [vb]
    after requests to exactly those backups. If [vb] carries an ["erro"]
    field, the backups after [u] receive no request, and the lookup
    stores the primary's failure in the failures tier and returns it,
    whatever the backups after [u] would have answered. *)
Theorem first_200_backup_ends_scan (placa : string) (w : World)
    (v vb : json) (us us' : list string) (u : string) (resp : Response) :
  cached Principal (cache_key placa) w = None ->
  cached Erros (error_key placa) w = None ->
  result (consultar_api_principal cfg env placa w) = Return v ->
  source_unavailable v ->
  configured cfg = us ++ u :: us' ->
  Forall (fun u' => ~ responds_200 (net env (backup_request_url u' placa))) us ->
  answer (net env (backup_request_url u placa)) = Return resp ->
  status_code resp = 200%Z ->
  body resp = Some vb ->
  (forall w', result (consultar_apis_backup cfg env placa w') = Return vb /\
              trace (consultar_apis_backup cfg env placa w') =
                EvBackup placa :: backup_requests (us ++ [u]) placa) /\
  (is_failure vb ->
   let r := consultar_placa cfg env placa w in
   result r = Return v /\
   trace r = prelude cfg placa ++ EvBackup placa
               :: backup_requests (us ++ [u]) placa
               ++ [EvCache Erros (error_key placa)] /\
   cached Erros (error_key placa) (final r) = Some v /\
   cached Principal (cache_key placa) (final r) = None).
Proof.
  intros Hp He Hv Hsu Hc Hus Ha Hs Hb.
  assert (Hu : backup_body (net env (backup_request_url u placa)) = Some vb).
  { unfold backup_body. by rewrite Ha, Hs. }
  assert (Hus' : Forall (fun u' =>
             backup_body (net env (backup_request_url u' placa)) = None) us).
  { eapply Forall_impl; [exact Hus|]. intros u' Hn. unfold backup_body.
    destruct (answer (net env (backup_request_url u' placa)))
      as [resp'|] eqn:Ha'; [|done].
    destruct (Z.eqb_spec (status_code resp') 200); [|done].
    destruct Hn. by exists resp'. }
  pose proof (scan_first env us u us' vb placa Hus' Hu) as Hscan.
  split.
  - intros w'. by rewrite consultar_apis_backup_run, Hc, Hscan.
  - intros Hf r. subst r.
    rewrite (consultar_placa_miss cfg env placa w v Hp He Hv).
    rewrite (proj2 (wants_fallback_spec v) Hsu).
    rewrite Hc, Hscan. cbn [fst snd]. simpl default. rewrite Hf.
    cbn [result final trace].
    split_and!; [done..| |].
    + rewrite <- (advance_0 (store _ _ _ _)). apply cached_store.
      apply tier_ttl_pos.
    + rewrite <- (advance_0 (store _ _ _ _)).
      rewrite cached_store_ne, advance_0 by done.
      by do 2 apply cached_None_advance.
Qed.

End FallbackOutcome.

(** ** Cache precedence *)

Lemma wants_fallback_is_failure v :
  wants_fallback v = Return true -> is_failure v.
Proof.
  unfold wants_fallback, is_failure.
  by destruct (py_in "erro" v) as [[]|].
Qed.

Section CachePrecedence.

Variable cfg : Config.

(** After a lookup that went upstream and returned [v], the tier that
    holds [v] answers the next lookup for the same identifier. *)
Lemma second_lookup_served env' placa w1 t k v d :
  (t = Principal /\ k = cache_key placa \/
   t = Erros /\ k = error_key placa /\
   cached Principal (cache_key placa) w1 = None) ->
  (Z.of_N d < tier_ttl t)%Z ->
  let r2 := consultar_placa cfg env' placa (advance d (store t k v w1)) in
  result r2 = Return v /\ no_adapter r2.
Proof.
  intros [(-> & ->)|(-> & -> & Hp)] Hd r2; subst r2.
  - rewrite (consultar_placa_hit_principal cfg env' placa _ v)
      by (by apply cached_store).
    split; [done|]. by repeat constructor.
  - rewrite (consultar_placa_hit_erros cfg env' placa _ v).
    + split; [done|]. by repeat constructor.
    + rewrite cached_store_ne by done. by apply cached_None_advance.
    + by apply cached_store.
Qed.

(** C4. A lookup that finds a fresh entry for the identifier in the
    results tier returns that entry; otherwise, one that finds a fresh
    entry in the failures tier returns that entry; in both cases no
    adapter is invoked and no request is sent. Hence, after a lookup that
    found nothing in the two tiers and returned [v], a second lookup for
    the same identifier that starts before the time to live of the tier
    holding [v] has passed (the results tier for a record, the failures
    tier for a failure) returns [v] again with no adapter involved. *)
Theorem cache_precedence (env : Env) (placa : string) (w : World) :
  (forall v, cached Principal (cache_key placa) w = Some v ->
     let r := consultar_placa cfg env placa w in
     result r = Return v /\ no_adapter r) /\
  (forall v, cached Principal (cache_key placa) w = None ->
     cached Erros (error_key placa) w = Some v ->
     let r := consultar_placa cfg env placa w in
     result r = Return v /\ no_adapter r) /\
  (forall v, cached Principal (cache_key placa) w = None ->
     cached Erros (error_key placa) w = None ->
     result (consultar_placa cfg env placa w) = Return v ->
     exists t, (t = Principal /\ is_record v \/ t = Erros /\ is_failure v) /\
       forall (env' : Env) (d : N), (Z.of_N d < tier_ttl t)%Z ->
         let r2 := consultar_placa cfg env' placa
                     (advance d (final (consultar_placa cfg env placa w))) in
         result r2 = Return v /\ no_adapter r2).
Proof.
  split_and!.
  - intros v H r. subst r.
    rewrite (consultar_placa_hit_principal cfg env placa w v H).
    split; [done|]. by repeat constructor.
  - intros v Hp He r. subst r.
    rewrite (consultar_placa_hit_erros cfg env placa w v Hp He).
    split; [done|]. by repeat constructor.
  - intros v Hp He.
    destruct (consultar_api_principal_run cfg env placa) as [v0 Hrun].
    assert (Hv0 : result (consultar_api_principal cfg env placa w) = Return v0)
      by (by rewrite Hrun).
    rewrite (consultar_placa_miss cfg env placa w v0 Hp He Hv0).
    destruct (wants_fallback v0) as [[]|e] eqn:Hwf; [| |done].
    + destruct (py_in "erro" (default _ _)) as [[]|e] eqn:Hin; [| |done];
        cbn [result final]; intros [= <-].
      * exists Erros. split; [right; split; [done|]|].
        { by apply wants_fallback_is_failure. }
        intros env' d Hd.
        apply second_lookup_served; [|done].
        right. split_and!; [done..|]. by do 2 apply cached_None_advance.
      * exists Principal. split; [by left|].
        intros env' d Hd.
        apply second_lookup_served; [|done]. by left.
    + destruct (py_in "erro" v0) as [[]|e] eqn:Hin; [| |done];
        cbn [result final]; intros [= <-].
      * exists Erros. split; [by right|].
        intros env' d Hd.
        apply second_lookup_served; [|done].
        right. split_and!; [done..|]. by apply cached_None_advance.
      * exists Principal. split; [by left|].
        intros env' d Hd.
        apply second_lookup_served; [|done]. by left.
Qed.

End CachePrecedence.

(** ** Computations that keep a property of the world *)

Section Preserves.

Context {P : World -> Prop}.

Lemma preserves_ret {A} (a : A) : preserves P (ret a).
Proof. by intros w. Qed.

Lemma preserves_lift {A} (o : outcome A) : preserves P (lift o).
Proof. by intros w. Qed.

Lemma preserves_emit e : preserves P (emit e).
Proof. by intros w. Qed.

Lemma preserves_bind {A B} (m : M A) (f : A -> M B) :
  preserves P m ->
  (forall a w, result (m w) = Return a -> P (final (m w)) ->
               P (final (f a (final (m w))))) ->
  preserves P (bind m f).
Proof.
  intros Hm Hf w Hw. unfold bind.
  specialize (Hm w Hw). specialize (fun a => Hf a w).
  destruct (m w) as [[a|e] w1 t1]; simpl in *; [|done].
  specialize (Hf a eq_refl Hm). by destruct (f a w1).
Qed.

Lemma preserves_try_except {A} (m : M A) (h : exn -> M A) :
  preserves P m -> (forall e, preserves P (h e)) ->
  preserves P (try_except m h).
Proof.
  intros Hm Hh w Hw. unfold try_except.
  specialize (Hm w Hw).
  destruct (m w) as [[a|e] w1 t1]; simpl in *; [done|].
  specialize (Hh e w1 Hm). by destruct (h e w1).
Qed.

End Preserves.

Lemma preserves_bind' {A B} (P : World -> Prop) (m : M A) (f : A -> M B) :
  preserves P m -> (forall a, preserves P (f a)) -> preserves P (bind m f).
Proof. intros Hm Hf. apply preserves_bind; [done|]. intros a w _. apply Hf. Qed.

(** ** The inline tier holds records only *)

Lemma find_elem_of k c l : TTLCache.find k c = Some l -> l ∈ c.
Proof.
  induction c as [|l' c IH]; simpl; [done|].
  case_bool_decide; [intros [= ->]; by left | right; auto].
Qed.

Lemma getitem_sublist time k c :
  forall l, l ∈ (TTLCache.getitem time k c).2 -> l ∈ c.
Proof.
  intros l. unfold TTLCache.getitem.
  destruct (TTLCache.find k c) as [l'|] eqn:Hf; [|done].
  assert (l ∈ TTLCache.remove k c ++ [l'] -> l ∈ c).
  { rewrite elem_of_app, list_elem_of_singleton. unfold TTLCache.remove.
    rewrite list_elem_of_filter. intros [[_ ?]|Hl]; [done|].
    subst l. by eapply find_elem_of. }
  by destruct (time <? TTLCache.expires l')%Z.
Qed.

Lemma setitem_elem_of maxsize ttl time k v c l :
  l ∈ TTLCache.setitem maxsize ttl time k v c ->
  l ∈ c \/ l = TTLCache.mkLink k v (time + ttl).
Proof.
  unfold TTLCache.setitem, TTLCache.remove, TTLCache.expire.
  rewrite elem_of_app, list_elem_of_singleton, list_elem_of_filter.
  intros [[_ Hl]|Hl]; [left | by right].
  destruct (TTLCache.find k _).
  - by apply list_elem_of_filter in Hl as [_ ?].
  - apply (subseteq_drop _ _ l) in Hl.
    by apply list_elem_of_filter in Hl as [_ ?].
Qed.

Section InlineRecords.

Variable cfg : Config.
Variable env : Env.

Lemma inline_records_advance d w : inline_records w -> inline_records (advance d w).
Proof. done. Qed.

Lemma preserves_send r : preserves inline_records (send env r).
Proof. by intros w. Qed.

Lemma preserves_client_get url : preserves inline_records (client_get env url).
Proof. by intros w. Qed.

Lemma preserves_cache_contains t k : preserves inline_records (cache_contains t k).
Proof. by intros w. Qed.

Lemma preserves_cache_getitem t k : preserves inline_records (cache_getitem t k).
Proof.
  intros w Hw. unfold cache_getitem.
  pose proof (getitem_sublist (now w) k (tier_get t w)) as Hsub.
  destruct (TTLCache.getitem (now w) k (tier_get t w)) as [o c].
  destruct t; try done. unfold inline_records in *. simpl in *.
  rewrite Forall_forall in *. auto.
Qed.

Lemma preserves_cache_setitem t k v :
  (t = Inline -> is_record v) ->
  preserves inline_records (cache_setitem t k v).
Proof.
  intros Hv w Hw. unfold cache_setitem.
  destruct t; try done. unfold inline_records in *. simpl in *.
  rewrite Forall_forall in *. intros l Hl.
  apply setitem_elem_of in Hl as [Hl|Hl]; [auto|]. subst l. by apply Hv.
Qed.

Lemma preserves_consultar_api_principal placa :
  preserves inline_records (consultar_api_principal cfg env placa).
Proof.
  intros w Hw. destruct (consultar_api_principal_run cfg env placa) as [v Hv].
  by rewrite Hv.
Qed.

Lemma preserves_consultar_apis_backup placa :
  preserves inline_records (consultar_apis_backup cfg env placa).
Proof. intros w Hw. by rewrite consultar_apis_backup_run. Qed.

Lemma preserves_consultar_placa placa :
  preserves inline_records (consultar_placa cfg env placa).
Proof.
  unfold consultar_placa.
  apply preserves_bind'; [apply preserves_cache_contains|].
  intros []; [apply preserves_cache_getitem|].
  apply preserves_bind'; [apply preserves_cache_contains|].
  intros []; [apply preserves_cache_getitem|].
  apply preserves_bind'; [apply preserves_consultar_api_principal|].
  intros resultado.
  apply preserves_bind'; [apply preserves_lift|].
  intros [].
  - apply preserves_bind'; [apply preserves_consultar_apis_backup|].
    intros resultado_backup.
    apply preserves_bind'; [apply preserves_lift|].
    intros []; simpl;
      (apply preserves_bind'; [by apply preserves_cache_setitem|]);
      intros _; apply preserves_ret.
  - apply preserves_bind'; [apply preserves_lift|].
    intros erro.
    apply preserves_bind'; [|intros _; apply preserves_ret].
    destruct erro; by apply preserves_cache_setitem.
Qed.

Lemma preserves_responder_mensagem resultado plate_type :
  preserves inline_records (responder_mensagem env resultado plate_type).
Proof.
  unfold responder_mensagem.
  apply preserves_bind'; [apply preserves_lift|].
  intros []; (apply preserves_bind'; [apply preserves_lift|]);
    intros _; apply preserves_send.
Qed.

Lemma preserves_responder_inline resultado placa plate_type :
  preserves inline_records (responder_inline env resultado placa plate_type).
Proof.
  unfold responder_inline.
  apply preserves_bind'; [apply preserves_lift|].
  intros []; (apply preserves_bind'; [apply preserves_lift|]); intros _;
    [apply preserves_send|].
  apply preserves_bind'; [apply preserves_lift|]. intros _. apply preserves_send.
Qed.

Lemma preserves_handle_message text :
  preserves inline_records (handle_message cfg env text).
Proof.
  unfold handle_message.
  destruct text as [[|c text]|]; try apply preserves_ret.
  destruct (negb _); [apply preserves_send|].
  apply preserves_bind'.
  { apply preserves_bind'; [apply preserves_emit|]. intros _. apply preserves_ret. }
  intros [[] plate_type]; simpl; [|apply preserves_send].
  apply preserves_bind'; [apply preserves_send|]. intros _.
  apply preserves_try_except.
  - apply preserves_bind'; [apply preserves_consultar_placa|]. intros resultado.
    apply preserves_bind'; [apply preserves_send|]. intros _.
    apply preserves_responder_mensagem.
  - intros _. apply preserves_bind'; [apply preserves_send|].
    intros _. apply preserves_send.
Qed.

Lemma preserves_handle_inline_query query :
  preserves inline_records (handle_inline_query cfg env query).
Proof.
  unfold handle_inline_query.
  destruct query as [query|]; [|apply preserves_ret].
  destruct (PyStr.strip query) as [|c q]; [apply preserves_send|].
  destruct (negb _); [apply preserves_send|].
  apply preserves_bind'.
  { apply preserves_bind'; [apply preserves_emit|]. intros _. apply preserves_ret. }
  intros [[] plate_type]; simpl; [|apply preserves_send].
  apply preserves_bind'; [apply preserves_cache_contains|].
  intros [].
  - apply preserves_bind'; [apply preserves_cache_getitem|].
    intros resultado. apply preserves_responder_inline.
  - apply preserves_bind'.
    + apply preserves_try_except.
      * apply preserves_bind'; [apply preserves_consultar_placa|].
        intros resultado.
        apply preserves_bind; [apply preserves_lift|].
        intros erro w Herro Hw.
        apply preserves_bind'; [|intros _; apply preserves_ret|done].
        destruct erro; simpl; [apply preserves_ret|].
        by apply preserves_cache_setitem.
      * intros _. apply preserves_bind'; [apply preserves_send|].
        intros _. apply preserves_ret.
    + intros [resultado|]; [apply preserves_responder_inline | apply preserves_ret].
Qed.

End InlineRecords.

(** ** Running a sequence step by step *)

Lemma bind_return {A B} (m : M A) (f : A -> M B) w a w1 t1 :
  m w = mkRun (Return a) w1 t1 ->
  bind m f w = mkRun (result (f a w1)) (final (f a w1)) (t1 ++ trace (f a w1)).
Proof. intros H. unfold bind. rewrite H. by destruct (f a w1). Qed.

Lemma trace_bind {A B} (m : M A) (f : A -> M B) w a w1 t1 :
  m w = mkRun (Return a) w1 t1 ->
  trace (bind m f w) = t1 ++ trace (f a w1).
Proof. intros H. by rewrite (bind_return m f w a w1 t1 H). Qed.

Lemma validate_run placa w :
  validate placa w = mkRun (Return (validate_plate placa)) w [EvValidate placa].
Proof. reflexivity. Qed.

(** ** The entry points *)

Section EntryPoints.

Variable cfg : Config.
Variable env : Env.


Lemma get_method_dict v : is_dict v -> get_method v = Return tt.
Proof. by intros [d ->]. Qed.


(** What the end of [handle_inline_query] does with a value that passes
    ["erro" not in]: the result article when the value has [get], the
    [AttributeError] of the missing method otherwise. *)
Lemma responder_inline_record v placa plate_type w :
  is_record v ->
  responder_inline env v placa plate_type w =
    match get_method v with
    | Return _ => send env (InlineResultado v placa plate_type) w
    | Raise e => mkRun (Raise e) w []
    end.
Proof.
  intros Hrec. unfold responder_inline, formatar_mensagem_otimizada, bind, lift.
  rewrite Hrec. by destruct (get_method v) as [[]|e].
Qed.


Lemma gate_message (n : Z) :
  negb ((7 <=? n)%Z && (n <=? 8)%Z) = bool_decide (~ (7 <= n <= 8)%Z).
Proof.
  case_bool_decide as H.
  - apply negb_true_iff, andb_false_iff.
    destruct (Z.leb_spec 7 n); [|by left].
    destruct (Z.leb_spec n 8); [|by right]. destruct H; lia.
  - apply negb_false_iff, andb_true_iff.
    split; apply Z.leb_le; lia.
Qed.

(** C9. The two entry points check different lengths before they
    classify. [handle_message] classifies exactly when the length of the
    stripped raw text is 7 or 8, and otherwise answers with the
    invalid-format notice without classifying; [handle_inline_query]
    classifies exactly when the normalized plate has length 7, whatever
    the raw length, and otherwise answers with the length notice without
    classifying. So the raw text [A-B-C-1234] (ten characters, the plate
    ABC1234 with three separators) is rejected unclassified by
    [handle_message], while [handle_inline_query] classifies it, as an
    [antiga] plate, and goes on to the inline tier. *)
Theorem entry_points_check_different_lengths (w : World) :
  (forall text, text <> "" ->
     let n := PyStr.len (PyStr.strip text) in
     let r := handle_message cfg env (Some text) w in
     (~ (7 <= n <= 8)%Z -> trace r = [EvReply FormatoInvalido]) /\
     ((7 <= n <= 8)%Z ->
      exists t, trace r = EvValidate (normalize_plate (PyStr.strip text)) :: t)) /\
  (forall query, PyStr.strip query <> "" ->
     let placa := normalize_plate (PyStr.strip query) in
     let r := handle_inline_query cfg env (Some query) w in
     (PyStr.len placa <> 7%Z ->
      trace r = [EvReply (InlineTamanho (PyStr.strip query) (PyStr.len placa))]) /\
     (PyStr.len placa = 7%Z -> exists t, trace r = EvValidate placa :: t)) /\
  (PyStr.len (PyStr.strip "A-B-C-1234") = 10%Z /\
   normalize_plate (PyStr.strip "A-B-C-1234") = "ABC1234" /\
   validate_plate "ABC1234" = (true, "antiga") /\
   trace (handle_message cfg env (Some "A-B-C-1234") w) =
     [EvReply FormatoInvalido] /\
   exists t, trace (handle_inline_query cfg env (Some "A-B-C-1234") w) =
     EvValidate "ABC1234" :: EvCache Inline (inline_cache_key "ABC1234") :: t).
Proof.
  split_and!; try reflexivity.
  - intros text Htext n r. subst n r.
    destruct text as [|c text]; [done|]. unfold handle_message.
    rewrite gate_message. split; intros Hn.
    + by rewrite bool_decide_true.
    + rewrite bool_decide_false by tauto.
      erewrite trace_bind by apply validate_run. eauto.
  - intros query Hq placa r. subst placa r. unfold handle_inline_query.
    destruct (PyStr.strip query) as [|c q]; [done|]. split; intros Hn.
    + by rewrite (proj2 (Z.eqb_neq _ _) Hn).
    + rewrite Hn. cbn [Z.eqb Pos.eqb negb].
      erewrite trace_bind by apply validate_run. eauto.
  - unfold handle_inline_query.
    change (PyStr.strip "A-B-C-1234") with "A-B-C-1234".
    change (normalize_plate "A-B-C-1234") with "ABC1234".
    change (negb (PyStr.len "ABC1234" =? 7)%Z) with false. cbv iota.
    erewrite trace_bind by apply validate_run.
    change (validate_plate "ABC1234") with (true, "antiga"). cbv iota beta.
    cbn [negb]. erewrite trace_bind by reflexivity.
    unfold inline_cache_key. simpl app. eauto.
Qed.

(** C6, as the code has it. The raw text [AB#1D23] has seven characters,
    so the length check of [handle_message] lets it through; it
    normalizes to the six characters AB1D23, [validate_plate] is
    consulted on them and matches no pattern, and the handler answers
    with the invalid-plate notice. No cache tier is read or written and
    no adapter is invoked. *)
Theorem hash_plate_rejected_by_validator (w : World) :
  let r := handle_message cfg env (Some "AB#1D23") w in
  PyStr.len (PyStr.strip "AB#1D23") = 7%Z /\
  normalize_plate (PyStr.strip "AB#1D23") = "AB1D23" /\
  validate_plate "AB1D23" = (false, "invalid") /\
  trace r = [EvValidate "AB1D23"; EvReply PlacaInvalida] /\
  final r = advance (telegram env PlacaInvalida) w.
Proof. by split_and!. Qed.

End EntryPoints.

Ltac not_in_list H :=
  repeat (apply elem_of_cons in H as [H|H]; [discriminate H|]);
  by apply elem_of_nil in H.


(** ** The statements on the scenarios *)

Lemma timeout_unavailable : source_unavailable Scenario.timeout_failure.
Proof. right. right. left. apply (failure_kind timeout). Qed.

Example normalize_then_validate :
  normalize_plate " abc1234 " = "ABC1234" /\
  validate_plate "ABC1234" = (true, "antiga") /\
  validate_plate "ABC1D23" = (true, "mercosul") /\
  validate_plate "ABC12D3" = (true, "moto_mercosul").
Proof. by split_and!. Qed.

Example lookup_first_backup_erro :
  result (consultar_placa Scenario.cfg Scenario.first_backup_erro "ABC1234"
            (initial_world 0)) = Return Scenario.timeout_failure.
Proof. vm_compute. reflexivity. Qed.

Example lookup_primary_404 :
  let r := consultar_placa Scenario.cfg Scenario.primary_404 "ABC1234"
             (initial_world 0) in
  result r = Return (failure "not_found" "🔍 Placa não encontrada na base de dados") /\
  trace r = [EvCache Principal "placa_ABC1234"; EvCache Erros "error_ABC1234";
             EvPrincipal "ABC1234"; EvGet Scenario.principal;
             EvCache Erros "error_ABC1234"].
Proof. split; reflexivity. Qed.

(** A primary that answers 200 with the empty list: the lookup returns
    the list, the formatter raises inside the [try] of [handle_message],
    and the handler deletes the loading message again and sends the
    internal-error notice. *)
Example message_on_list_body :
  let r := handle_message Scenario.cfg Scenario.primary_list (Some "ABC1234")
             (initial_world 0) in
  result r = Return tt /\
  replies (trace r) =
    [Consultando "ABC1234" "antiga"; ApagaConsultando; ApagaConsultando;
     ErroInterno].
Proof. split; reflexivity. Qed.

(** C5 on the plate ABC1D23. *)
Lemma validate_plate_classifies_witness :
  String.length "ABC1D23" = 7%nat /\
  all_chars is_alnum_upper "ABC1D23" = true /\
  (validate_plate "ABC1D23" = (true, "mercosul")
   <-> has_shape shape_mercosul "ABC1D23" = true).
Proof.
  split; [reflexivity|]. split; [reflexivity|].
  apply (validate_plate_classifies "ABC1D23"); reflexivity.
Defined.

(** C7 on a primary that times out. *)
Lemma consultar_api_principal_total_witness :
  answer (net Scenario.all_down (principal_url Scenario.cfg "ABC1234"))
    = Raise TimeoutException /\
  returns_kind timeout
    (consultar_api_principal Scenario.cfg Scenario.all_down "ABC1234"
       (initial_world 0)).
Proof.
  split; [reflexivity|].
  apply (consultar_api_principal_total Scenario.cfg Scenario.all_down "ABC1234"
           (initial_world 0)).
  reflexivity.
Defined.

(** C1 on a primary that times out: the backup adapter is invoked. *)
Lemma fallback_iff_source_unavailable_witness :
  cached Principal (cache_key "ABC1234") (initial_world 0) = None /\
  cached Erros (error_key "ABC1234") (initial_world 0) = None /\
  result (consultar_api_principal Scenario.cfg Scenario.all_down "ABC1234"
            (initial_world 0)) = Return Scenario.timeout_failure /\
  EvBackup "ABC1234"
    ∈ trace (consultar_placa Scenario.cfg Scenario.all_down "ABC1234"
               (initial_world 0)).
Proof.
  split; [reflexivity|]. split; [reflexivity|]. split; [reflexivity|].
  apply (fallback_iff_source_unavailable Scenario.cfg Scenario.all_down
           "ABC1234" (initial_world 0) Scenario.timeout_failure);
    [reflexivity..|].
  exact timeout_unavailable.
Defined.



(** C3 as stated fails: the primary times out, the first backup answers 200
    with a failure body, and the second backup is the first one to return
    a record; yet the lookup neither returns nor stores that record, and
    the second backup receives no request. *)
Lemma later_record_not_reached :
  let env := Scenario.first_backup_erro in
  let r := consultar_placa Scenario.cfg env "ABC1234" (initial_world 0) in
  configured Scenario.cfg = ["https://b1.test"; "https://b2.test"] /\
  result (consultar_api_principal Scenario.cfg env "ABC1234" (initial_world 0))
    = Return Scenario.timeout_failure /\
  backup_body (net env Scenario.b1) = Some Scenario.unknown_plate /\
  is_failure Scenario.unknown_plate /\
  backup_body (net env Scenario.b2) = Some Scenario.civic /\
  is_record Scenario.civic /\
  result r <> Return Scenario.civic /\
  cached Principal (cache_key "ABC1234") (final r) = None /\
  EvGet Scenario.b2 ∉ trace r.
Proof.
  split_and!; try reflexivity.
  - vm_compute. discriminate.
  - vm_compute. intros H. not_in_list H.
Qed.

(** C3 as the code has it, on a first backup that is down. *)
Lemma first_backup_record_returned_witness :
  let env := Scenario.second_backup_ok in
  let r := consultar_placa Scenario.cfg env "ABC1234" (initial_world 0) in
  configured Scenario.cfg = ["https://b1.test"] ++ "https://b2.test" :: [] /\
  backup_body (net env (backup_request_url "https://b1.test" "ABC1234")) = None /\
  backup_body (net env (backup_request_url "https://b2.test" "ABC1234"))
    = Some Scenario.civic /\
  is_record Scenario.civic /\
  result r = Return Scenario.civic /\
  cached Principal (cache_key "ABC1234") (final r) = Some Scenario.civic.
Proof.
  intros env r.
  split; [reflexivity|]. split; [reflexivity|]. split; [reflexivity|].
  split; [reflexivity|].
  destruct (first_backup_record_returned Scenario.cfg env "ABC1234"
              (initial_world 0) Scenario.timeout_failure Scenario.civic
              ["https://b1.test"] [] "https://b2.test")
    as (Hr & _ & Hc & _);
    [reflexivity | reflexivity | reflexivity | exact timeout_unavailable
    | reflexivity | by repeat constructor | reflexivity | reflexivity |].
  split; [exact Hr | exact Hc].
Defined.

(** C10 on a first backup that answers 200 with a failure body while the
    second one would answer with a record. *)
Lemma first_200_backup_ends_scan_witness :
  let env := Scenario.first_backup_erro in
  let r := consultar_placa Scenario.cfg env "ABC1234" (initial_world 0) in
  answer (net env (backup_request_url "https://b1.test" "ABC1234"))
    = Return (mkResponse 200 (Some Scenario.unknown_plate)) /\
  is_failure Scenario.unknown_plate /\
  backup_body (net env Scenario.b2) = Some Scenario.civic /\
  result r = Return Scenario.timeout_failure /\
  trace r = prelude Scenario.cfg "ABC1234" ++ EvBackup "ABC1234"
              :: backup_requests ([] ++ ["https://b1.test"]) "ABC1234"
              ++ [EvCache Erros (error_key "ABC1234")] /\
  cached Erros (error_key "ABC1234") (final r) = Some Scenario.timeout_failure.
Proof.
  intros env r.
  split; [reflexivity|]. split; [reflexivity|]. split; [reflexivity|].
  destruct (first_200_backup_ends_scan Scenario.cfg env "ABC1234"
              (initial_world 0) Scenario.timeout_failure Scenario.unknown_plate
              [] ["https://b2.test"] "https://b1.test"
              (mkResponse 200 (Some Scenario.unknown_plate)))
    as (_ & H);
    [reflexivity | reflexivity | reflexivity | exact timeout_unavailable
    | reflexivity | constructor | reflexivity | reflexivity | reflexivity |].
  destruct (H eq_refl) as (Hr & Ht & Hc & _).
  split; [exact Hr|]. split; [exact Ht | exact Hc].
Defined.

(** C4 on a primary that answers with a record: a second lookup 29 minutes
    after the first is served from the results tier. *)
Lemma cache_precedence_witness :
  let r1 := consultar_placa Scenario.cfg Scenario.primary_ok "ABC1234"
              (initial_world 0) in
  let r2 := consultar_placa Scenario.cfg Scenario.all_down "ABC1234"
              (advance 1740000 (final r1)) in
  result r1 = Return Scenario.civic /\
  exists t, (t = Principal /\ is_record Scenario.civic \/
             t = Erros /\ is_failure Scenario.civic) /\
    ((1740000 < tier_ttl t)%Z -> result r2 = Return Scenario.civic /\ no_adapter r2).
Proof.
  intros r1 r2. split; [reflexivity|].
  destruct (cache_precedence Scenario.cfg Scenario.primary_ok "ABC1234"
              (initial_world 0)) as (_ & _ & H).
  destruct (H Scenario.civic eq_refl eq_refl eq_refl) as (t & Ht & H2).
  exists t. split; [exact Ht|]. intros Hd.
  exact (H2 Scenario.all_down 1740000%N Hd).
Defined.

(** C6 as stated fails: the length check lets [AB#1D23] through, and
    [validate_plate] is consulted. *)
Lemma length_gate_lets_hash_plate_through :
  let r := handle_message Scenario.cfg Scenario.primary_ok (Some "AB#1D23")
             (initial_world 0) in
  PyStr.len (PyStr.strip "AB#1D23") = 7%Z /\
  trace r <> [EvReply FormatoInvalido] /\
  EvValidate "AB1D23" ∈ trace r /\
  EvReply FormatoInvalido ∉ trace r.
Proof.
  split_and!.
  - reflexivity.
  - vm_compute. discriminate.
  - vm_compute. by left.
  - vm_compute. intros H. not_in_list H.
Qed.

(** C9 on the raw text [ABC 1234 xy], eleven characters. *)
Lemma entry_points_check_different_lengths_witness :
  "ABC 1234 xy" <> "" /\
  ~ (7 <= PyStr.len (PyStr.strip "ABC 1234 xy") <= 8)%Z /\
  trace (handle_message Scenario.cfg Scenario.primary_ok (Some "ABC 1234 xy")
           (initial_world 0)) = [EvReply FormatoInvalido].
Proof.
  assert (E : PyStr.len (PyStr.strip "ABC 1234 xy") = 11%Z) by reflexivity.
  split; [discriminate|]. split; [rewrite E; lia|].
  destruct (entry_points_check_different_lengths Scenario.cfg
              Scenario.primary_ok (initial_world 0)) as (H & _).
  destruct (H "ABC 1234 xy") as (Hn & _); [discriminate|].
  apply Hn. rewrite E. lia.
Defined.



(** * Further properties *)

(** ** Normalization *)

Lemma keep_chars_all p s : all_chars p (PyStr.keep_chars p s) = true.
Proof.
  induction s as [|c r IH]; simpl; [done|].
  destruct (p c) eqn:Hc; simpl; [by rewrite Hc | done].
Qed.

Lemma keep_chars_id p s : all_chars p s = true -> PyStr.keep_chars p s = s.
Proof.
  induction s as [|c r IH]; simpl; [done|].
  intros [-> Hr]%andb_prop. by rewrite IH.
Qed.

Lemma keep_chars_length p s :
  (String.length (PyStr.keep_chars p s) <= String.length s)%nat.
Proof.
  induction s as [|c r IH]; simpl; [done|]. destruct (p c); simpl; lia.
Qed.

(** On ASCII text [upper] keeps the length. *)
Lemma upper_length s :
  all_chars PyStr.is_ascii s = true ->
  String.length (PyStr.upper s) = String.length s.
Proof.
  induction s as [|c r IH]; simpl; [done|].
  intros [_ Hr]%andb_prop. by rewrite IH.
Qed.

Lemma lstrip_length s : (String.length (PyStr.lstrip s) <= String.length s)%nat.
Proof.
  induction s as [|c r IH]; simpl; [done|].
  destruct (PyStr.is_space c); simpl; lia.
Qed.

Lemma rstrip_length s : (String.length (PyStr.rstrip s) <= String.length s)%nat.
Proof.
  induction s as [|c r IH]; simpl; [done|].
  destruct (PyStr.rstrip r); [destruct (PyStr.is_space c)|]; simpl in *; lia.
Qed.

Lemma normalize_plate_alnum s :
  all_chars is_alnum_upper (normalize_plate s) = true.
Proof. apply keep_chars_all. Qed.

Lemma normalize_plate_fixed s :
  all_chars is_alnum_upper s = true -> normalize_plate s = s.
Proof.
  intros H. unfold normalize_plate.
  rewrite (strip_upper_alnum s H). by apply keep_chars_id.
Qed.

(** X1. The normalized plate holds only characters of [[A-Z0-9]]; for a
    raw text of ASCII characters it is never longer than the raw text;
    and an upper-case alphanumeric text is its own normal form. *)
Theorem normalize_plate_output (s : string) :
  all_chars is_alnum_upper (normalize_plate s) = true /\
  (all_chars PyStr.is_ascii s = true ->
   (String.length (normalize_plate s) <= String.length s)%nat) /\
  (all_chars is_alnum_upper s = true -> normalize_plate s = s).
Proof.
  split_and!.
  - apply normalize_plate_alnum.
  - intros Hs. unfold normalize_plate, PyStr.strip.
    etrans; [apply keep_chars_length|]. etrans; [apply rstrip_length|].
    etrans; [apply lstrip_length|]. by rewrite upper_length.
  - apply normalize_plate_fixed.
Qed.

Lemma normalize_plate_output_witness :
  (all_chars PyStr.is_ascii " abc-1d23 " = true /\
   (String.length (normalize_plate " abc-1d23 ")
    <= String.length " abc-1d23 ")%nat) /\
  (all_chars is_alnum_upper "ABC1D23" = true /\
   normalize_plate "ABC1D23" = "ABC1D23").
Proof.
  split; (split; [reflexivity|]).
  - apply (proj1 (proj2 (normalize_plate_output " abc-1d23 "))). reflexivity.
  - apply (proj2 (proj2 (normalize_plate_output "ABC1D23"))). reflexivity.
Defined.

(** X2. Normalizing twice is normalizing once. *)
Theorem normalize_plate_idempotent (s : string) :
  normalize_plate (normalize_plate s) = normalize_plate s.
Proof. apply normalize_plate_fixed, normalize_plate_alnum. Qed.

(** ** The validator on arbitrary text *)

Lemma match_repeat_split cl n s :
  match_repeat cl n s = split_shape (replicate n cl) s.
Proof.
  revert s. induction n as [|n IH]; intros s; simpl; [done|].
  destruct s as [|c r]; [done|]. by destruct (in_class cl c).
Qed.

Lemma split_shape_app cls cls' s :
  split_shape (cls ++ cls') s =
  match split_shape cls s with
  | Some r => split_shape cls' r
  | None => None
  end.
Proof.
  revert s. induction cls as [|cl cls IH]; intros s; simpl; [done|].
  destruct s as [|c r]; [done|]. destruct (in_class cl c); [apply IH | done].
Qed.

Lemma match_items_split p s : match_items p s = split_shape (expand p) s.
Proof.
  revert s. induction p as [|[cl n] p IH]; intros s; [done|].
  cbn [match_items expand map concat snd fst].
  rewrite split_shape_app, match_repeat_split.
  destruct (split_shape (replicate n cl) s); [apply IH | done].
Qed.

Lemma has_shape_split cls s :
  has_shape cls s =
  match split_shape cls s with
  | Some EmptyString => true
  | _ => false
  end.
Proof.
  revert s. induction cls as [|cl cls IH]; intros s; simpl.
  - by destruct s.
  - destruct s as [|c r]; [done|]. destruct (in_class cl c); [apply IH | done].
Qed.

Lemma split_shape_last cls s c r :
  split_shape cls s = Some (String c r) ->
  last_char s = last_char (String c r).
Proof.
  revert s. induction cls as [|cl cls IH]; intros s; simpl.
  - by intros [= ->].
  - destruct s as [|c' r']; [done|].
    destruct (in_class cl c'); [|done]. intros H.
    destruct r' as [|c'' r'']; [by destruct cls|].
    change (last_char (String c' (String c'' r'')))
      with (last_char (String c'' r'')).
    by apply IH.
Qed.

Lemma rstrip_last s c :
  last_char (PyStr.rstrip s) = Some c -> PyStr.is_space c = false.
Proof.
  induction s as [|c' r IH]; simpl; [done|].
  destruct (PyStr.rstrip r) as [|c'' r''] eqn:Hr.
  - destruct (PyStr.is_space c') eqn:Hc'; simpl; [done|]. by intros [= <-].
  - simpl. simpl in IH. exact IH.
Qed.

(** After [strip], the [$] of a pattern can only match at the very end:
    the pattern matches exactly the strings of its shape. *)
Lemma re_match_stripped p s :
  re_match p (PyStr.strip s) = has_shape (expand p) (PyStr.strip s).
Proof.
  unfold re_match. rewrite match_items_split, has_shape_split.
  destruct (split_shape (expand p) (PyStr.strip s)) as [[|c r]|] eqn:Hs;
    [done| |done].
  simpl. destruct r; [|done].
  apply split_shape_last in Hs. simpl in Hs.
  apply rstrip_last in Hs.
  destruct c as [[] [] [] [] [] [] [] []]; try done.
Qed.

Lemma in_class_inj c cl cl' :
  in_class cl c = true -> in_class cl' c = true -> cl = cl'.
Proof.
  destruct cl, cl'; try done; simpl;
    destruct c as [[] [] [] [] [] [] [] []]; vm_compute; congruence.
Qed.

Lemma has_shape_inj cls cls' s :
  has_shape cls s = true -> has_shape cls' s = true -> cls = cls'.
Proof.
  revert cls' s. induction cls as [|cl cls IH]; intros [|cl' cls'] [|c r];
    simpl; try done.
  intros [H1 H2]%andb_prop [H1' H2']%andb_prop.
  f_equal; [by eapply in_class_inj | by eapply IH].
Qed.

Lemma has_shape_length cls s :
  has_shape cls s = true -> String.length s = length cls.
Proof.
  revert s. induction cls as [|cl cls IH]; intros [|c r]; simpl; try done.
  intros [_ H]%andb_prop. f_equal. by apply IH.
Qed.

Lemma validate_plate_by_shapes plate :
  let s := PyStr.strip (PyStr.upper plate) in
  validate_plate plate =
    if has_shape shape_mercosul s then (true, "mercosul")
    else if has_shape shape_antiga s then (true, "antiga")
    else if has_shape shape_moto_mercosul s then (true, "moto_mercosul")
    else (false, "invalid").
Proof.
  intros s. unfold validate_plate, PLATE_PATTERNS, first_match. fold s.
  subst s. by rewrite !re_match_stripped.
Qed.

Lemma validate_plate_true_length plate :
  (validate_plate plate).1 = true ->
  String.length (PyStr.strip (PyStr.upper plate)) = 7%nat.
Proof.
  rewrite validate_plate_by_shapes.
  destruct (has_shape shape_mercosul _) eqn:H1;
    [intros _; by apply has_shape_length in H1|].
  destruct (has_shape shape_antiga _) eqn:H2;
    [intros _; by apply has_shape_length in H2|].
  destruct (has_shape shape_moto_mercosul _) eqn:H3;
    [intros _; by apply has_shape_length in H3 | done].
Qed.

(** X3. Whatever the text, [validate_plate] upper-cases and strips it and
    accepts it exactly when the outcome has one of the three shapes,
    answering with the type of that shape; every other text, of any
    length, is [(False, 'invalid')]. *)
Theorem validate_plate_any_text (plate : string) :
  let s := PyStr.strip (PyStr.upper plate) in
  (forall plate_type,
     validate_plate plate = (true, plate_type) <->
     exists cls, shape_of plate_type = Some cls /\ has_shape cls s = true) /\
  (validate_plate plate = (false, "invalid") <->
   has_shape shape_antiga s = false /\ has_shape shape_mercosul s = false /\
   has_shape shape_moto_mercosul s = false) /\
  (forall plate_type, validate_plate plate = (true, plate_type) ->
     String.length s = 7%nat).
Proof.
  intros s. pose proof (validate_plate_by_shapes plate) as Hv.
  cbv zeta in Hv. fold s in Hv.
  split_and!.
  - intros plate_type. rewrite Hv. unfold shape_of. split.
    + destruct (has_shape shape_mercosul s) eqn:H1;
        [intros [= <-]; by eexists|].
      destruct (has_shape shape_antiga s) eqn:H2;
        [intros [= <-]; by eexists|].
      destruct (has_shape shape_moto_mercosul s) eqn:H3;
        [intros [= <-]; by eexists | done].
    + intros (cls & Hcls & Hs).
      repeat case_bool_decide; try done; subst plate_type;
        injection Hcls as <-; rewrite ?Hs.
      * destruct (has_shape shape_mercosul s) eqn:H1; [|done].
        by pose proof (has_shape_inj _ _ _ Hs H1).
      * done.
      * destruct (has_shape shape_mercosul s) eqn:H1;
          [by pose proof (has_shape_inj _ _ _ Hs H1)|].
        destruct (has_shape shape_antiga s) eqn:H2; [|done].
        by pose proof (has_shape_inj _ _ _ Hs H2).
  - rewrite Hv.
    destruct (has_shape shape_mercosul s), (has_shape shape_antiga s),
      (has_shape shape_moto_mercosul s); intuition congruence.
  - intros plate_type H. apply validate_plate_true_length. by rewrite H.
Qed.

Lemma validate_plate_any_text_witness :
  validate_plate "  abc1d23 " = (true, "mercosul") /\
  String.length (PyStr.strip (PyStr.upper "  abc1d23 ")) = 7%nat.
Proof.
  split; [reflexivity|].
  by apply (validate_plate_any_text "  abc1d23 ") with "mercosul".
Defined.

(** ** [escape_markdown_v2] *)

Lemma replace_char_self c s : replace_char c (String c EmptyString) s = s.
Proof.
  induction s as [|c' r IH]; simpl; [done|]. rewrite IH.
  destruct (Ascii.eqb_spec c' c); by subst.
Qed.

Lemma escape_each_self chars s : escape_each chars s = s.
Proof.
  revert s. induction chars as [|c r IH]; intros s; simpl; [done|].
  by rewrite replace_char_self.
Qed.

(** X4. [escape_markdown_v2] escapes nothing: every [replace] of its body puts
    a character in place of itself, so a string comes back as it went in,
    with no backslash added before any MarkdownV2 character; an integer
    comes back as its decimal text and [None] as the empty string. *)
Theorem escape_markdown_v2_changes_nothing :
  (forall s, escape_markdown_v2 (MdStr s) = s) /\
  (forall n, escape_markdown_v2 (MdInt n) = pretty n) /\
  escape_markdown_v2 MdNone = "".
Proof.
  split_and!; [intros s | intros n | done]; unfold escape_markdown_v2;
    by rewrite escape_each_self, replace_char_self.
Qed.

(** ** The lookup, outcome by outcome *)

Lemma wants_fallback_record v : is_record v -> wants_fallback v = Return false.
Proof. unfold is_record, wants_fallback. by intros ->. Qed.

Lemma wants_fallback_dict v :
  is_dict v -> exists b, wants_fallback v = Return b.
Proof.
  intros [d ->]. unfold wants_fallback. simpl.
  destruct (d !! "erro") as [e|] eqn:Hd.
  - rewrite bool_decide_true by done. eauto.
  - rewrite bool_decide_false by (by intros []). eauto.
Qed.




Lemma cached_store_expired t k v w d :
  (tier_ttl t <= Z.of_N d)%Z ->
  cached t k (advance d (store t k v w)) = None.
Proof.
  intros Hd. unfold cached, store.
  destruct t; cbn [tier_get tier_put advance now cache_principal cache_erros
                   cache_inline];
    rewrite find_setitem; cbn [TTLCache.expires TTLCache.value];
    (rewrite (proj2 (Z.ltb_ge _ _)); [done | lia]).
Qed.

(** X5. What a tier serves after a write: the value, for as long as the time
    to live of the tier has not passed; nothing from then on; and the other
    tiers serve what they served before. *)
Theorem entry_lifetime (t : Tier) (k : string) (v : json) (w : World) (d : N) :
  ((Z.of_N d < tier_ttl t)%Z ->
   cached t k (advance d (store t k v w)) = Some v) /\
  ((tier_ttl t <= Z.of_N d)%Z ->
   cached t k (advance d (store t k v w)) = None) /\
  (forall t' k', t' <> t ->
     cached t' k' (advance d (store t k v w)) = cached t' k' (advance d w)).
Proof.
  split_and!.
  - apply cached_store.
  - apply cached_store_expired.
  - intros t' k' Hne. by apply cached_store_ne.
Qed.

Lemma entry_lifetime_witness :
  (Z.of_N 299999 < tier_ttl Erros)%Z /\
  (tier_ttl Erros <= Z.of_N 300000)%Z /\
  cached Erros "error_ABC1234"
    (advance 299999 (store Erros "error_ABC1234" Scenario.timeout_failure
                       (initial_world 0))) = Some Scenario.timeout_failure /\
  cached Erros "error_ABC1234"
    (advance 300000 (store Erros "error_ABC1234" Scenario.timeout_failure
                       (initial_world 0))) = None.
Proof.
  assert (H1 : (Z.of_N 299999 < tier_ttl Erros)%Z) by (vm_compute; reflexivity).
  assert (H2 : (tier_ttl Erros <= Z.of_N 300000)%Z) by (vm_compute; discriminate).
  split; [exact H1|]. split; [exact H2|]. split.
  - exact (proj1 (entry_lifetime Erros "error_ABC1234"
                    Scenario.timeout_failure (initial_world 0) 299999) H1).
  - exact (proj1 (proj2 (entry_lifetime Erros "error_ABC1234"
                           Scenario.timeout_failure (initial_world 0) 300000))
             H2).
Defined.

Section LookupOutcomes.

Variable cfg : Config.
Variable env : Env.

(** X6. A lookup that finds nothing in the two tiers and gets an outcome that
    does not call for the backups handles it alone. A record from the
    primary is stored in the results tier and returned; a failure whose
    kind is not one of the four fallback kinds (not_found, rate_limit, or
    any other ["erro"] a 2xx body carries) is stored in the failures tier
    and returned. Either way one request was sent, no backup was invoked,
    and the other tier still has nothing for the plate. *)
Theorem lookup_without_fallback (placa : string) (w : World) (v : json) :
  cached Principal (cache_key placa) w = None ->
  cached Erros (error_key placa) w = None ->
  result (consultar_api_principal cfg env placa w) = Return v ->
  let r := consultar_placa cfg env placa w in
  (is_record v ->
   result r = Return v /\
   trace r = prelude cfg placa ++ [EvCache Principal (cache_key placa)] /\
   cached Principal (cache_key placa) (final r) = Some v /\
   cached Erros (error_key placa) (final r) = None) /\
  (is_dict v -> is_failure v -> ~ source_unavailable v ->
   result r = Return v /\
   trace r = prelude cfg placa ++ [EvCache Erros (error_key placa)] /\
   cached Erros (error_key placa) (final r) = Some v /\
   cached Principal (cache_key placa) (final r) = None).
Proof.
  intros Hp He Hv r. subst r.
  rewrite (consultar_placa_miss cfg env placa w v Hp He Hv).
  split.
  - intros Hrec. rewrite (wants_fallback_record v Hrec), Hrec.
    cbn [result final trace]. split_and!; [done..| |].
    + rewrite <- (advance_0 (store _ _ _ _)). apply cached_store, tier_ttl_pos.
    + rewrite <- (advance_0 (store _ _ _ _)).
      rewrite cached_store_ne, advance_0 by done. by apply cached_None_advance.
  - intros Hd Hf Hsu.
    destruct (wants_fallback_dict v Hd) as [[] Hb].
    { by apply wants_fallback_spec in Hb. }
    rewrite Hb, Hf. cbn [result final trace]. split_and!; [done..| |].
    + rewrite <- (advance_0 (store _ _ _ _)). apply cached_store, tier_ttl_pos.
    + rewrite <- (advance_0 (store _ _ _ _)).
      rewrite cached_store_ne, advance_0 by done. by apply cached_None_advance.
Qed.

(** X7. The time to live is exact. After a lookup that found nothing in the
    two tiers and returned [v], a lookup for the same plate that starts
    once the time to live of the tier holding [v] has passed finds
    nothing again and asks the primary anew. *)
Theorem lookup_after_expiry (placa : string) (w : World) (v : json) :
  cached Principal (cache_key placa) w = None ->
  cached Erros (error_key placa) w = None ->
  result (consultar_placa cfg env placa w) = Return v ->
  exists t, (t = Principal /\ is_record v \/ t = Erros /\ is_failure v) /\
    forall (env' : Env) (d : N), (tier_ttl t <= Z.of_N d)%Z ->
      exists rest,
        trace (consultar_placa cfg env' placa
                 (advance d (final (consultar_placa cfg env placa w)))) =
        prelude cfg placa ++ rest.
Proof.
  intros Hp He.
  destruct (consultar_api_principal_run cfg env placa) as [v0 Hrun].
  assert (Hv0 : result (consultar_api_principal cfg env placa w) = Return v0)
    by (by rewrite Hrun).
  rewrite (consultar_placa_miss cfg env placa w v0 Hp He Hv0).
  assert (Hagain : forall env' t k v' w1 d,
    (t = Principal /\ k = cache_key placa /\
       cached Erros (error_key placa) w1 = None \/
     t = Erros /\ k = error_key placa /\
       cached Principal (cache_key placa) w1 = None) ->
    (tier_ttl t <= Z.of_N d)%Z ->
    exists rest,
      trace (consultar_placa cfg env' placa (advance d (store t k v' w1))) =
      prelude cfg placa ++ rest).
  { intros env' t k v' w1 d Ht Hd.
    destruct (consultar_api_principal_run cfg env' placa) as [v1 Hrun1].
    erewrite (consultar_placa_miss cfg env' placa _ v1); [| | |by rewrite Hrun1].
    - destruct (wants_fallback v1) as [[]|]; [| |by exists []; rewrite app_nil_r].
      + destruct (py_in "erro" _) as [[]|]; cbn [trace]; eauto.
      + destruct (py_in "erro" v1) as [[]|]; cbn [trace]; eauto;
          exists []; by rewrite app_nil_r.
    - destruct Ht as [(-> & -> & H)|(-> & -> & H)].
      + by apply cached_store_expired.
      + rewrite cached_store_ne by done. by apply cached_None_advance.
    - destruct Ht as [(-> & -> & H)|(-> & -> & H)].
      + rewrite cached_store_ne by done. by apply cached_None_advance.
      + by apply cached_store_expired. }
  destruct (wants_fallback v0) as [[]|e] eqn:Hwf; [| |done].
  - destruct (py_in "erro" (default _ _)) as [[]|e] eqn:Hin; [| |done];
      cbn [result final]; intros [= <-].
    + exists Erros. split; [right; split; [done|]|].
      { by apply wants_fallback_is_failure. }
      intros env' d Hd. apply Hagain; [|done].
      right. split_and!; [done..|]. by do 2 apply cached_None_advance.
    + exists Principal. split; [by left|].
      intros env' d Hd. apply Hagain; [|done].
      left. split_and!; [done..|]. by do 2 apply cached_None_advance.
  - destruct (py_in "erro" v0) as [[]|e] eqn:Hin; [| |done];
      cbn [result final]; intros [= <-].
    + exists Erros. split; [by right|].
      intros env' d Hd. apply Hagain; [|done].
      right. split_and!; [done..|]. by apply cached_None_advance.
    + exists Principal. split; [by left|].
      intros env' d Hd. apply Hagain; [|done].
      left. split_and!; [done..|]. by apply cached_None_advance.
Qed.

End LookupOutcomes.

(** ** What a lookup can raise, and what it can request *)

Lemma scan_prefix env us placa : (scan env us placa).1 `prefix_of` us.
Proof.
  induction us as [|u us IH]; simpl; [done|].
  destruct (backup_body (net env (backup_request_url u placa))).
  - simpl. by exists us.
  - destruct (scan env us placa) as [q o]. simpl in *. by apply prefix_cons.
Qed.

Lemma requests_backup_requests q placa :
  requests (backup_requests q placa) = map (fun u => backup_request_url u placa) q.
Proof. induction q as [|u q IH]; simpl; [done|]. by rewrite <- IH. Qed.

Lemma requests_prelude cfg placa :
  requests (prelude cfg placa) = [principal_url cfg placa].
Proof. reflexivity. Qed.

Section LookupEffects.

Variable cfg : Config.
Variable env : Env.

(** X8. One lookup sends its requests along a fixed plan: first the primary,
    then the configured backups in their order. The requests it sends are
    an initial segment of that plan, so no URL is asked twice in a row of
    retries, no unset backup is asked, and at most one request goes out
    per source. *)
Theorem lookup_requests_follow_plan (placa : string) (w : World) :
  let t := trace (consultar_placa cfg env placa w) in
  requests t `prefix_of` request_plan cfg placa /\
  (length (requests t) <= 1 + length (configured cfg))%nat.
Proof.
  intros t.
  assert (Hpre : requests t `prefix_of` request_plan cfg placa).
  { subst t.
    destruct (cached Principal (cache_key placa) w) as [v|] eqn:Hp.
    { rewrite (consultar_placa_hit_principal cfg env placa w v Hp).
      apply prefix_nil. }
    destruct (cached Erros (error_key placa) w) as [v|] eqn:He.
    { rewrite (consultar_placa_hit_erros cfg env placa w v Hp He).
      apply prefix_nil. }
    destruct (consultar_api_principal_run cfg env placa) as [v0 Hrun].
    assert (Hv0 : result (consultar_api_principal cfg env placa w) = Return v0)
      by (by rewrite Hrun).
    rewrite (consultar_placa_miss cfg env placa w v0 Hp He Hv0).
    assert (Hone : [principal_url cfg placa] `prefix_of` request_plan cfg placa)
      by (by eexists).
    assert (Hscan : forall tail, requests tail = [] ->
      requests (prelude cfg placa ++ EvBackup placa
                  :: backup_requests (scan env (configured cfg) placa).1 placa
                  ++ tail) `prefix_of` request_plan cfg placa).
    { intros tail Htail. unfold requests in *.
      rewrite omap_app. cbn [omap list_omap prelude app].
      rewrite omap_app, Htail, app_nil_r.
      fold (requests (backup_requests (scan env (configured cfg) placa).1 placa)).
      rewrite requests_backup_requests. unfold request_plan.
      apply prefix_cons.
      destruct (scan_prefix env (configured cfg) placa) as [k Hk].
      rewrite Hk at 2. rewrite map_app. by eexists. }
    destruct (wants_fallback v0) as [[]|]; [| |done].
    - destruct (py_in "erro" _) as [[]|]; cbn [trace].
      + by apply Hscan.
      + by apply Hscan.
      + rewrite <- (app_nil_r (backup_requests _ _)). by apply Hscan.
    - by destruct (py_in "erro" v0) as [[]|]. }
  split; [done|].
  apply prefix_length in Hpre. unfold request_plan in Hpre.
  simpl in Hpre. by rewrite length_map in Hpre.
Qed.





(** X11. The backup adapter raises nothing. When no configured backup answers
    200 with a body that decodes (each one raises, answers with another
    status or with a body that is not JSON; or none is configured), every
    configured backup has been asked once, in order, and the adapter
    returns the [all_apis_failed] dict. *)
Theorem backups_exhausted (placa : string) (w : World) :
  let r := consultar_apis_backup cfg env placa w in
  (exists v, result r = Return v) /\
  (Forall (fun u => backup_body (net env (backup_request_url u placa)) = None)
     (configured cfg) ->
   result r = Return all_apis_failed /\
   trace r = EvBackup placa :: backup_requests (configured cfg) placa).
Proof.
  intros r. subst r. rewrite consultar_apis_backup_run. split; [by eexists|].
  intros H. by rewrite (scan_all_skip env _ placa H).
Qed.

End LookupEffects.




Lemma backups_exhausted_witness :
  Forall (fun u => backup_body (net Scenario.all_down
                                  (backup_request_url u "ABC1234")) = None)
    (configured Scenario.cfg) /\
  result (consultar_apis_backup Scenario.cfg Scenario.all_down "ABC1234"
            (initial_world 0)) = Return all_apis_failed.
Proof.
  assert (H : Forall (fun u => backup_body (net Scenario.all_down
                                  (backup_request_url u "ABC1234")) = None)
                (configured Scenario.cfg)) by (by repeat constructor).
  split; [exact H|].
  by apply (backups_exhausted Scenario.cfg Scenario.all_down "ABC1234"
              (initial_world 0)).
Defined.

(** ** Invariants of the tiers *)

Lemma find_key k c l : TTLCache.find k c = Some l -> TTLCache.key l = k.
Proof.
  induction c as [|l' c IH]; simpl; [done|].
  case_bool_decide; [by intros [= <-] | done].
Qed.

Lemma remove_length_lt k c l :
  TTLCache.find k c = Some l ->
  (length (TTLCache.remove k c) < length c)%nat.
Proof.
  intros H. unfold TTLCache.remove.
  apply (length_filter_lt _ _ l); [by eapply find_elem_of|].
  intros Hne. by apply Hne, (find_key k c).
Qed.

Lemma getitem_length time k c :
  (length (TTLCache.getitem time k c).2 <= length c)%nat.
Proof.
  unfold TTLCache.getitem.
  destruct (TTLCache.find k c) as [l|] eqn:Hf; [|done].
  pose proof (remove_length_lt k c l Hf).
  destruct (time <? TTLCache.expires l)%Z; simpl; rewrite length_app; simpl; lia.
Qed.

Lemma setitem_length maxsize ttl time k v c :
  (1 <= maxsize)%nat -> (length c <= maxsize)%nat ->
  (length (TTLCache.setitem maxsize ttl time k v c) <= maxsize)%nat.
Proof.
  intros Hm Hc. unfold TTLCache.setitem.
  pose proof (length_filter (fun l => (time < TTLCache.expires l)%Z) c) as He.
  fold (TTLCache.expire time c) in He.
  rewrite length_app. simpl.
  destruct (TTLCache.find k (TTLCache.expire time c)) as [l|] eqn:Hf.
  - pose proof (remove_length_lt _ _ _ Hf). lia.
  - pose proof (length_filter (fun l => TTLCache.key l <> k)
                  (drop (length (TTLCache.expire time c) + 1 - maxsize)
                        (TTLCache.expire time c))) as Hr.
    fold (TTLCache.remove k
            (drop (length (TTLCache.expire time c) + 1 - maxsize)
               (TTLCache.expire time c))) in Hr.
    rewrite length_drop in Hr. lia.
Qed.

Lemma tier_maxsize_pos t : (1 <= tier_maxsize t)%nat.
Proof. destruct t; simpl; lia. Qed.

(** Computations built from the cache primitives keep any property that
    the primitives keep. *)
Section GenericLookup.

Variable cfg : Config.
Variable env : Env.
Variable P : World -> Prop.
Hypothesis P_advance : forall d w, P w -> P (advance d w).
Hypothesis P_getitem :
  forall t k, t <> Inline -> preserves P (cache_getitem t k).
Hypothesis P_setitem :
  forall t k v, t <> Inline -> preserves P (cache_setitem t k v).

Lemma generic_consultar_placa placa :
  preserves P (consultar_placa cfg env placa).
Proof using P_advance P_getitem P_setitem.
  assert (Hc : forall t k, preserves P (cache_contains t k)) by (by intros t k w).
  unfold consultar_placa.
  apply preserves_bind'; [apply Hc|].
  intros []; [by apply P_getitem|].
  apply preserves_bind'; [apply Hc|].
  intros []; [by apply P_getitem|].
  apply preserves_bind'.
  { intros w Hw. destruct (consultar_api_principal_run cfg env placa) as [v Hv].
    rewrite Hv. by apply P_advance. }
  intros resultado.
  apply preserves_bind'; [apply preserves_lift|].
  intros [].
  - apply preserves_bind'.
    { intros w Hw. rewrite consultar_apis_backup_run. by apply P_advance. }
    intros resultado_backup.
    apply preserves_bind'; [apply preserves_lift|].
    intros []; simpl;
      (apply preserves_bind'; [by apply P_setitem|]);
      intros _; apply preserves_ret.
  - apply preserves_bind'; [apply preserves_lift|].
    intros erro.
    apply preserves_bind'; [|intros _; apply preserves_ret].
    destruct erro; by apply P_setitem.
Qed.

End GenericLookup.

Section GenericHandlers.

Variable cfg : Config.
Variable env : Env.
Variable P : World -> Prop.
Hypothesis P_advance : forall d w, P w -> P (advance d w).
Hypothesis P_lookup : forall placa, preserves P (consultar_placa cfg env placa).
Hypothesis P_getitem_inline : forall k, preserves P (cache_getitem Inline k).
Hypothesis P_setitem_inline :
  forall k v, is_record v -> preserves P (cache_setitem Inline k v).

Lemma generic_send r : preserves P (send env r).
Proof using P_advance. intros w Hw. by apply P_advance. Qed.

Lemma generic_validate placa : preserves P (validate placa).
Proof. by intros w. Qed.

Lemma generic_responder_mensagem resultado plate_type :
  preserves P (responder_mensagem env resultado plate_type).
Proof using P_advance.
  unfold responder_mensagem.
  apply preserves_bind'; [apply preserves_lift|].
  intros []; (apply preserves_bind'; [apply preserves_lift|]);
    intros _; apply generic_send.
Qed.

Lemma generic_responder_inline resultado placa plate_type :
  preserves P (responder_inline env resultado placa plate_type).
Proof using P_advance.
  unfold responder_inline.
  apply preserves_bind'; [apply preserves_lift|].
  intros []; (apply preserves_bind'; [apply preserves_lift|]); intros _;
    [apply generic_send|].
  apply preserves_bind'; [apply preserves_lift|]. intros _. apply generic_send.
Qed.

Lemma generic_handle_message text :
  preserves P (handle_message cfg env text).
Proof using P_advance P_lookup.
  unfold handle_message.
  destruct text as [[|c text]|]; try apply preserves_ret.
  destruct (negb _); [apply generic_send|].
  apply preserves_bind'; [apply generic_validate|].
  intros [[] plate_type]; simpl; [|apply generic_send].
  apply preserves_bind'; [apply generic_send|]. intros _.
  apply preserves_try_except.
  - apply preserves_bind'; [apply P_lookup|]. intros resultado.
    apply preserves_bind'; [apply generic_send|]. intros _.
    apply generic_responder_mensagem.
  - intros _. apply preserves_bind'; [apply generic_send|].
    intros _. apply generic_send.
Qed.

Lemma generic_handle_inline_query query :
  preserves P (handle_inline_query cfg env query).
Proof using P_advance P_lookup P_getitem_inline P_setitem_inline.
  unfold handle_inline_query.
  destruct query as [query|]; [|apply preserves_ret].
  destruct (PyStr.strip query) as [|c q]; [apply generic_send|].
  destruct (negb _); [apply generic_send|].
  apply preserves_bind'; [apply generic_validate|].
  intros [[] plate_type]; simpl; [|apply generic_send].
  apply preserves_bind'; [by intros w|].
  intros [].
  - apply preserves_bind'; [apply P_getitem_inline|].
    intros resultado. apply generic_responder_inline.
  - apply preserves_bind'.
    + apply preserves_try_except.
      * apply preserves_bind'; [apply P_lookup|].
        intros resultado.
        apply preserves_bind; [apply preserves_lift|].
        intros erro w Herro Hw.
        apply preserves_bind'; [|intros _; apply preserves_ret|done].
        destruct erro; simpl; [apply preserves_ret|].
        by apply P_setitem_inline.
      * intros _. apply preserves_bind'; [apply generic_send|].
        intros _. apply preserves_ret.
    + intros [resultado|];
        [apply generic_responder_inline | apply preserves_ret].
Qed.

End GenericHandlers.

(** *** Capacity *)

Lemma capacity_getitem t k : preserves within_capacity (cache_getitem t k).
Proof.
  intros w Hw t'. unfold cache_getitem.
  pose proof (getitem_length (now w) k (tier_get t w)) as Hl.
  destruct (TTLCache.getitem (now w) k (tier_get t w)) as [o c]. simpl in *.
  pose proof (Hw t). pose proof (Hw t').
  destruct t, t'; simpl in *; lia.
Qed.

Lemma capacity_setitem t k v : preserves within_capacity (cache_setitem t k v).
Proof.
  intros w Hw t'. unfold cache_setitem.
  pose proof (setitem_length (tier_maxsize t) (tier_ttl t) (now w) k v
                (tier_get t w) (tier_maxsize_pos t) (Hw t)) as Hl.
  pose proof (Hw t').
  destruct t, t'; simpl in *; lia.
Qed.

Lemma capacity_advance d w : within_capacity w -> within_capacity (advance d w).
Proof. intros Hw t. specialize (Hw t). by destruct t. Qed.

(** *** Records in the results tier, failures in the failures tier *)

Lemma sorted_advance d w : tiers_sorted w -> tiers_sorted (advance d w).
Proof. done. Qed.

Lemma sorted_getitem t k : preserves tiers_sorted (cache_getitem t k).
Proof.
  intros w [Hp He]. unfold cache_getitem.
  pose proof (getitem_sublist (now w) k (tier_get t w)) as Hsub.
  destruct (TTLCache.getitem (now w) k (tier_get t w)) as [o c]. simpl in *.
  destruct t; split; simpl in *; try done;
    rewrite Forall_forall in *; auto.
Qed.

Lemma sorted_setitem t k v :
  (t = Principal -> is_record v) -> (t = Erros -> is_failure v) ->
  preserves tiers_sorted (cache_setitem t k v).
Proof.
  intros Hr Hf w [Hp He]. unfold cache_setitem.
  destruct t; split; simpl in *; try done;
    rewrite Forall_forall in *; intros l Hl;
    apply setitem_elem_of in Hl as [Hl|Hl]; auto; subst l; simpl; auto.
Qed.

Lemma sorted_consultar_placa cfg env placa :
  preserves tiers_sorted (consultar_placa cfg env placa).
Proof.
  unfold consultar_placa.
  apply preserves_bind'; [by intros w|].
  intros []; [apply sorted_getitem|].
  apply preserves_bind'; [by intros w|].
  intros []; [apply sorted_getitem|].
  apply preserves_bind'.
  { intros w Hw. destruct (consultar_api_principal_run cfg env placa) as [v Hv].
    by rewrite Hv. }
  intros resultado.
  apply preserves_bind; [apply preserves_lift|].
  intros fallback w Hfb Hw. simpl in Hfb.
  destruct fallback.
  - apply preserves_bind'; [| |done].
    { intros w' Hw'. by rewrite consultar_apis_backup_run. }
    intros resultado_backup.
    apply preserves_bind; [apply preserves_lift|].
    intros erro w' Herro Hw'. simpl in Herro.
    destruct erro; cbn [negb].
    + apply preserves_bind'; [|intros _; apply preserves_ret|done].
      apply sorted_setitem; [done|]. intros _.
      by apply wants_fallback_is_failure.
    + apply preserves_bind'; [|intros _; apply preserves_ret|done].
      by apply sorted_setitem.
  - apply preserves_bind; [apply preserves_lift| |done].
    intros erro w' Herro Hw'. simpl in Herro.
    apply preserves_bind'; [|intros _; apply preserves_ret|done].
    destruct erro; by apply sorted_setitem.
Qed.

(** X12. In every world the bot can reach, the results tier holds records
    only and the failures tier holds failures only, so a hit in the
    results tier never gives the caller a dict with an ["erro"] field and
    a hit in the failures tier always does; and no tier holds more entries
    than its [maxsize] (500, 100 and 200). *)
Theorem reachable_tiers (cfg : Config) (w : World) :
  reachable cfg w ->
  tiers_sorted w /\ within_capacity w /\
  (forall k v, cached Principal k w = Some v -> is_record v) /\
  (forall k v, cached Erros k w = Some v -> is_failure v).
Proof.
  intros Hw.
  assert (Hs : tiers_sorted w).
  { induction Hw as [time|w d _ IH|w env u _ IH].
    - by split.
    - done.
    - destruct u as [text|query].
      + exact (generic_handle_message cfg env tiers_sorted sorted_advance
                 (sorted_consultar_placa cfg env) text w IH).
      + refine (generic_handle_inline_query cfg env tiers_sorted sorted_advance
                  (sorted_consultar_placa cfg env) (sorted_getitem Inline) _
                  query w IH).
        intros k v _. by apply sorted_setitem. }
  assert (Hc : within_capacity w).
  { clear Hs. induction Hw as [time|w d _ IH|w env u _ IH].
    - intros t. destruct t; simpl; lia.
    - by apply capacity_advance.
    - assert (Hl : forall placa,
        preserves within_capacity (consultar_placa cfg env placa)).
      { intros placa. apply generic_consultar_placa;
          auto using capacity_advance, capacity_getitem, capacity_setitem. }
      destruct u as [text|query].
      + exact (generic_handle_message cfg env within_capacity capacity_advance
                 Hl text w IH).
      + exact (generic_handle_inline_query cfg env within_capacity
                 capacity_advance Hl (capacity_getitem Inline)
                 (fun k v _ => capacity_setitem Inline k v) query w IH). }
  split_and!; [done..| |].
  - intros k v. unfold cached. simpl.
    destruct (TTLCache.find k (cache_principal w)) as [l|] eqn:Hf; [|done].
    destruct (now w <? TTLCache.expires l)%Z; [|done]. intros [= <-].
    destruct Hs as [Hp _]. rewrite Forall_forall in Hp.
    by eapply Hp, find_elem_of.
  - intros k v. unfold cached. simpl.
    destruct (TTLCache.find k (cache_erros w)) as [l|] eqn:Hf; [|done].
    destruct (now w <? TTLCache.expires l)%Z; [|done]. intros [= <-].
    destruct Hs as [_ He]. rewrite Forall_forall in He.
    by eapply He, find_elem_of.
Qed.

Lemma reachable_tiers_witness :
  let w := final (handle Scenario.cfg Scenario.primary_404
                    (Message (Some "ABC1234")) (initial_world 0)) in
  reachable Scenario.cfg w /\
  cached Erros "error_ABC1234" w
    = Some (failure "not_found" "🔍 Placa não encontrada na base de dados") /\
  within_capacity w /\
  is_failure (failure "not_found" "🔍 Placa não encontrada na base de dados").
Proof.
  intros w.
  assert (Hw : reachable Scenario.cfg w) by apply reach_handle, reach_start.
  split; [exact Hw|]. split; [reflexivity|].
  destruct (reachable_tiers Scenario.cfg w Hw) as (_ & Hc & _ & He).
  split; [exact Hc|]. by apply (He "error_ABC1234").
Defined.

(** ** The message path and the inline tier *)

(** X13. Neither a lookup nor the handling of a message touches the inline
    tier: only inline queries read or fill it. *)
Theorem inline_tier_untouched_by_messages (cfg : Config) (env : Env) (w : World) :
  (forall placa,
     cache_inline (final (consultar_placa cfg env placa w)) = cache_inline w) /\
  (forall text,
     cache_inline (final (handle_message cfg env text w)) = cache_inline w).
Proof.
  set (P := fun w' : World => cache_inline w' = cache_inline w).
  assert (Ha : forall d w', P w' -> P (advance d w')) by done.
  assert (Hg : forall t k, t <> Inline -> preserves P (cache_getitem t k)).
  { intros t k Ht w' Hw'. unfold cache_getitem.
    destruct (TTLCache.getitem (now w') k (tier_get t w')) as [o c].
    by destruct t. }
  assert (Hs : forall t k v, t <> Inline -> preserves P (cache_setitem t k v)).
  { intros t k v Ht w' Hw'. by destruct t. }
  assert (Hl : forall placa, preserves P (consultar_placa cfg env placa)).
  { intros placa. by apply generic_consultar_placa. }
  split.
  - intros placa. by apply (Hl placa w).
  - intros text. by apply (generic_handle_message cfg env P Ha Hl text w).
Qed.

(** ** The events of a run *)

Section Emits.

Context {Q : Event -> Prop}.

Lemma emits_ret {A} (a : A) : emits Q (ret a).
Proof. intros w. constructor. Qed.

Lemma emits_lift {A} (o : outcome A) : emits Q (lift o).
Proof. intros w. constructor. Qed.

Lemma emits_one {A} (m : M A) e :
  Q e -> (forall w, trace (m w) = [e]) -> emits Q m.
Proof. intros He Hm w. rewrite Hm. by repeat constructor. Qed.

Lemma emits_bind {A B} (m : M A) (f : A -> M B) :
  emits Q m ->
  (forall a w, result (m w) = Return a -> Forall Q (trace (f a (final (m w))))) ->
  emits Q (bind m f).
Proof.
  intros Hm Hf w. unfold bind.
  specialize (Hm w). specialize (fun a => Hf a w).
  destruct (m w) as [[a|e] w1 t1]; simpl in *; [|done].
  specialize (Hf a eq_refl). destruct (f a w1). simpl in *.
  by apply Forall_app.
Qed.

Lemma emits_bind' {A B} (m : M A) (f : A -> M B) :
  emits Q m -> (forall a, emits Q (f a)) -> emits Q (bind m f).
Proof. intros Hm Hf. apply emits_bind; [done|]. intros a w _. apply Hf. Qed.

Lemma emits_try_except {A} (m : M A) (h : exn -> M A) :
  emits Q m -> (forall e, emits Q (h e)) -> emits Q (try_except m h).
Proof.
  intros Hm Hh w. unfold try_except. specialize (Hm w).
  destruct (m w) as [[a|e] w1 t1]; simpl in *; [done|].
  specialize (Hh e w1). destruct (h e w1). simpl in *. by apply Forall_app.
Qed.

End Emits.

Lemma emits_impl {A} (Q Q' : Event -> Prop) (m : M A) :
  (forall e, Q e -> Q' e) -> emits Q m -> emits Q' m.
Proof. intros H Hm w. eapply Forall_impl; [apply Hm | done]. Qed.

Lemma lookup_event_no_reply cfg placa t :
  Forall (lookup_event cfg placa) t -> replies t = [].
Proof.
  induction 1 as [|e t He _ IH]; [done|].
  unfold replies in *. simpl. by destruct e.
Qed.

Section LookupEvents.

Variable cfg : Config.
Variable env : Env.

Lemma backup_requests_planned q placa :
  q `prefix_of` configured cfg ->
  Forall (lookup_event cfg placa) (backup_requests q placa).
Proof.
  intros [k Hk]. unfold backup_requests. apply Forall_forall.
  intros e (u & -> & Hu)%list_elem_of_fmap. simpl. unfold request_plan.
  right. apply list_elem_of_fmap. exists u. split; [done|].
  rewrite Hk. apply elem_of_app. by left.
Qed.

(** A lookup of [placa] reads and writes the results and failures tiers,
    invokes the adapters for [placa] and sends requests of its plan;
    nothing else. *)
Lemma consultar_placa_events placa :
  emits (lookup_event cfg placa) (consultar_placa cfg env placa).
Proof.
  intros w.
  destruct (cached Principal (cache_key placa) w) as [v|] eqn:Hp.
  { rewrite (consultar_placa_hit_principal cfg env placa w v Hp).
    by repeat constructor. }
  destruct (cached Erros (error_key placa) w) as [v|] eqn:He.
  { rewrite (consultar_placa_hit_erros cfg env placa w v Hp He).
    by repeat constructor. }
  destruct (consultar_api_principal_run cfg env placa) as [v0 Hrun].
  assert (Hv0 : result (consultar_api_principal cfg env placa w) = Return v0)
    by (by rewrite Hrun).
  rewrite (consultar_placa_miss cfg env placa w v0 Hp He Hv0).
  assert (Hpre : Forall (lookup_event cfg placa) (prelude cfg placa)).
  { repeat constructor; try done. }
  pose proof (backup_requests_planned _ placa
                (scan_prefix env (configured cfg) placa)) as Hq.
  assert (Hb : Forall (lookup_event cfg placa) [EvBackup placa])
    by (by repeat constructor).
  destruct (wants_fallback v0) as [[]|]; [| |done].
  - destruct (py_in "erro" _) as [[]|]; cbn [trace];
      repeat first [ done | apply Forall_app; split | apply Forall_cons; split
                   | apply Forall_nil ].
  - destruct (py_in "erro" v0) as [[]|]; cbn [trace];
      repeat first [ done | apply Forall_app; split | apply Forall_cons; split
                   | apply Forall_nil ].
Qed.

End LookupEvents.

(** ** What the handlers send upstream *)

Lemma validated_well_formed placa :
  all_chars is_alnum_upper placa = true ->
  (validate_plate placa).1 = true -> well_formed_plate placa.
Proof.
  intros Ha Hv. split_and!; [|done..].
  apply validate_plate_true_length in Hv.
  by rewrite (strip_upper_alnum placa Ha) in Hv.
Qed.

Section HandlerEvents.

Variable cfg : Config.
Variable env : Env.

Lemma send_upstream r : emits (upstream_well_formed cfg) (send env r).
Proof. by apply (emits_one _ (EvReply r)). Qed.

Lemma validate_upstream placa : emits (upstream_well_formed cfg) (validate placa).
Proof. by apply (emits_one _ (EvValidate placa)). Qed.

Lemma cache_upstream {A} (m : M A) t k :
  (forall w, trace (m w) = [EvCache t k]) -> emits (upstream_well_formed cfg) m.
Proof. intros H. by apply (emits_one _ (EvCache t k)). Qed.

Lemma cache_getitem_trace t k w : trace (cache_getitem t k w) = [EvCache t k].
Proof.
  unfold cache_getitem. by destruct (TTLCache.getitem (now w) k (tier_get t w)).
Qed.

Lemma lookup_upstream placa :
  well_formed_plate placa ->
  emits (upstream_well_formed cfg) (consultar_placa cfg env placa).
Proof.
  intros Hwf. eapply emits_impl; [|apply consultar_placa_events].
  intros e. destruct e; simpl; try done.
  - by intros ->.
  - by intros ->.
  - intros Hu. by exists placa.
Qed.

Lemma responder_mensagem_upstream resultado plate_type :
  emits (upstream_well_formed cfg) (responder_mensagem env resultado plate_type).
Proof.
  unfold responder_mensagem.
  apply emits_bind'; [apply emits_lift|].
  intros []; (apply emits_bind'; [apply emits_lift|]);
    intros _; apply send_upstream.
Qed.

Lemma responder_inline_upstream resultado placa plate_type :
  emits (upstream_well_formed cfg)
    (responder_inline env resultado placa plate_type).
Proof.
  unfold responder_inline.
  apply emits_bind'; [apply emits_lift|].
  intros []; (apply emits_bind'; [apply emits_lift|]); intros _;
    [apply send_upstream|].
  apply emits_bind'; [apply emits_lift|]. intros _. apply send_upstream.
Qed.

Lemma handle_message_upstream text :
  emits (upstream_well_formed cfg) (handle_message cfg env text).
Proof.
  unfold handle_message.
  destruct text as [[|c text]|]; try apply emits_ret.
  set (placa := normalize_plate (PyStr.strip (String c text))).
  assert (Ha : all_chars is_alnum_upper placa = true)
    by apply normalize_plate_alnum.
  destruct (negb _); [apply send_upstream|].
  apply emits_bind; [apply validate_upstream|].
  intros [is_valid plate_type] w [= Hv].
  assert (Hrest : forall is_valid, (is_valid = true -> well_formed_plate placa) ->
    emits (upstream_well_formed cfg)
      (if negb is_valid then send env PlacaInvalida
       else
         do _ <- send env (Consultando placa plate_type);
         try_except
           (do resultado <- consultar_placa cfg env placa;
            do _ <- send env ApagaConsultando;
            responder_mensagem env resultado plate_type)
           (fun _ => do _ <- send env ApagaConsultando; send env ErroInterno))).
  { intros [] Hwf; simpl; [|apply send_upstream].
    apply emits_bind'; [apply send_upstream|]. intros _.
    apply emits_try_except.
    - apply emits_bind'; [by apply lookup_upstream, Hwf|]. intros resultado.
      apply emits_bind'; [apply send_upstream|]. intros _.
      apply responder_mensagem_upstream.
    - intros _. apply emits_bind'; [apply send_upstream|].
      intros _. apply send_upstream. }
  apply Hrest. intros ->. apply validated_well_formed; [done|].
  by rewrite Hv.
Qed.

Lemma handle_inline_query_upstream query :
  emits (upstream_well_formed cfg) (handle_inline_query cfg env query).
Proof.
  unfold handle_inline_query.
  destruct query as [query|]; [|apply emits_ret].
  destruct (PyStr.strip query) as [|c q]; [apply send_upstream|].
  set (placa := normalize_plate (String c q)).
  assert (Ha : all_chars is_alnum_upper placa = true)
    by apply normalize_plate_alnum.
  destruct (negb _); [apply send_upstream|].
  apply emits_bind; [apply validate_upstream|].
  intros [is_valid plate_type] w [= Hv].
  assert (Hwf : is_valid = true -> well_formed_plate placa).
  { intros ->. apply validated_well_formed; [done|]. by rewrite Hv. }
  clearbody placa. clear Hv.
  revert w. change (emits (upstream_well_formed cfg)
    (let '(is_valid, plate_type) := (is_valid, plate_type) in
     if negb is_valid then send env (InlineInvalida (String c q))
     else
       let inline_cache_key := "inline_" +:+ placa in
       do hit <- cache_contains Inline inline_cache_key;
       if hit then
         do resultado <- cache_getitem Inline inline_cache_key;
         responder_inline env resultado placa plate_type
       else
         do looked <- try_except
             (do resultado <- consultar_placa cfg env placa;
              do erro <- lift (py_in "erro" resultado);
              do _ <- (if negb erro
                       then cache_setitem Inline inline_cache_key resultado
                       else ret tt);
              ret (Some resultado))
             (fun _ => do _ <- send env InlineErroConsulta; ret None);
         match looked with
         | Some resultado => responder_inline env resultado placa plate_type
         | None => ret tt
         end)).
  destruct is_valid; simpl; [|apply send_upstream].
  apply emits_bind'; [by apply (cache_upstream _ Inline ("inline_" +:+ placa))|].
  intros [].
  - apply emits_bind';
      [|intros resultado; apply responder_inline_upstream].
    apply (cache_upstream _ Inline ("inline_" +:+ placa)).
    apply cache_getitem_trace.
  - apply emits_bind'.
    + apply emits_try_except.
      * apply emits_bind'; [by apply lookup_upstream, Hwf|].
        intros resultado.
        apply emits_bind'; [apply emits_lift|]. intros erro.
        apply emits_bind'; [|intros _; apply emits_ret].
        destruct erro; simpl; [apply emits_ret|].
        by apply (cache_upstream _ Inline ("inline_" +:+ placa)).
      * intros _. apply emits_bind'; [apply send_upstream|].
        intros _. apply emits_ret.
    + intros [resultado|];
        [apply responder_inline_upstream | apply emits_ret].
Qed.

End HandlerEvents.

(** X14. Whatever update arrives, the bot goes upstream only for a well-formed
    plate: every adapter it invokes and every request it sends is for a
    text of seven upper-case alphanumeric characters that [validate_plate]
    accepts, and each requested URL belongs to the request plan of that
    plate. *)
Theorem upstream_only_for_well_formed_plates (cfg : Config) (env : Env)
    (u : Update) (w : World) :
  Forall (upstream_well_formed cfg) (trace (handle cfg env u w)).
Proof.
  destruct u as [text|query].
  - apply handle_message_upstream.
  - apply handle_inline_query_upstream.
Qed.

(** ** Every update gets its answer

    The calls to the Bot API are taken to succeed. *)

Lemma inline_tier_frame cfg env placa w :
  cache_inline (final (consultar_placa cfg env placa w)) = cache_inline w.
Proof.
  set (P := fun w' : World => cache_inline w' = cache_inline w).
  apply (generic_consultar_placa cfg env P); try done.
  - intros t k Ht w' Hw'. unfold cache_getitem.
    destruct (TTLCache.getitem (now w') k (tier_get t w')) as [o c].
    by destruct t.
  - intros t k v Ht w' Hw'. by destruct t.
Qed.

Lemma replies_app t t' : replies (t ++ t') = replies t ++ replies t'.
Proof. apply omap_app. Qed.

Lemma lookup_no_reply cfg env placa w :
  replies (trace (consultar_placa cfg env placa w)) = [].
Proof. eapply lookup_event_no_reply, consultar_placa_events. Qed.

Lemma reachable_inline_records cfg w : reachable cfg w -> inline_records w.
Proof.
  induction 1 as [time|w d _ IH|w env u _ IH].
  - constructor.
  - done.
  - destruct u as [text|query].
    + by apply preserves_handle_message.
    + by apply preserves_handle_inline_query.
Qed.

(** X15. [handle_message] lets no exception of the lookup escape and always
    closes the exchange: for a text that is not empty, the last thing it
    does is to send one closing reply (a format notice, the failure's
    message, the formatted record or the internal-error notice), and no
    closing reply is sent before it. Without a text it does nothing. *)
Theorem handle_message_always_answers (cfg : Config) (env : Env)
    (text : option string) (w : World) :
  let r := handle_message cfg env text w in
  result r = Return tt /\
  match text with
  | None | Some EmptyString => trace r = []
  | Some _ =>
      exists t rep,
        trace r = t ++ [EvReply rep] /\ closes_message rep = true /\
        Forall (fun rep' => closes_message rep' = false) (replies t)
  end.
Proof.
  intros r. subst r. destruct text as [[|c text]|]; [done| |done].
  unfold handle_message.
  set (placa := normalize_plate (PyStr.strip (String c text))).
  destruct (negb _).
  { split; [done|]. exists [], FormatoInvalido. by repeat split. }
  rewrite (bind_return _ _ _ _ _ _ (validate_run placa w)).
  destruct (validate_plate placa) as [[] plate_type]; cbn [negb].
  2:{ split; [done|]. exists [EvValidate placa], PlacaInvalida.
      by repeat split. }
  erewrite (bind_return (send env _)) by reflexivity.
  set (w2 := advance _ w).
  unfold try_except, bind.
  pose proof (lookup_no_reply cfg env placa w2) as Hnr.
  destruct (consultar_placa cfg env placa w2) as [[v|e] w3 t3]; simpl in Hnr.
  - assert (Hraise : exists t rep,
      [EvValidate placa; EvReply (Consultando placa plate_type)]
        ++ ((t3 ++ [EvReply ApagaConsultando])
            ++ [EvReply ApagaConsultando; EvReply ErroInterno])
        = t ++ [EvReply rep] /\ closes_message rep = true /\
      Forall (fun rep' => closes_message rep' = false) (replies t)).
    { exists ([EvValidate placa; EvReply (Consultando placa plate_type)]
              ++ t3 ++ [EvReply ApagaConsultando; EvReply ApagaConsultando]),
             ErroInterno.
      split; [by rewrite <- !app_assoc|]. split; [done|].
      rewrite !replies_app, Hnr. by repeat constructor. }
    assert (Hsent : forall rep, closes_message rep = true -> exists t rep',
      [EvValidate placa; EvReply (Consultando placa plate_type)]
        ++ (t3 ++ [EvReply ApagaConsultando; EvReply rep])
        = t ++ [EvReply rep'] /\ closes_message rep' = true /\
      Forall (fun rep' => closes_message rep' = false) (replies t)).
    { intros rep Hrep.
      exists ([EvValidate placa; EvReply (Consultando placa plate_type)]
              ++ t3 ++ [EvReply ApagaConsultando]), rep.
      split; [by rewrite <- !app_assoc|]. split; [done|].
      rewrite !replies_app, Hnr. by repeat constructor. }
    unfold responder_mensagem, formatar_mensagem_otimizada, send, lift, bind.
    destruct (py_in "erro" v) as [[]|e]; [| |by cbn];
      destruct (get_method v) as [[]|e]; cbn;
      (split; [done|]); first [exact Hraise | by apply Hsent].
  - unfold send. cbn. split; [done|].
    exists ([EvValidate placa; EvReply (Consultando placa plate_type)]
            ++ t3 ++ [EvReply ApagaConsultando]), ErroInterno.
    split; [by rewrite <- !app_assoc|]. split; [done|].
    rewrite !replies_app, Hnr. by repeat constructor.
Qed.

(** X16. [handle_inline_query] never answers an inline query twice. And no
    exception of the lookup escapes it: when the plate passes the checks,
    the inline tier has nothing for it and the lookup raises, the handler
    answers with the error article alone, returns, and leaves the inline
    tier as it was. *)
Theorem inline_query_answered_at_most_once (cfg : Config) (env : Env)
    (query : string) (w : World) :
  let r := handle_inline_query cfg env (Some query) w in
  (length (replies (trace r)) <= 1)%nat /\
  (forall placa plate_type e,
     placa = normalize_plate (PyStr.strip query) ->
     PyStr.strip query <> "" ->
     PyStr.len placa = 7%Z ->
     validate_plate placa = (true, plate_type) ->
     cached Inline (inline_cache_key placa) w = None ->
     result (consultar_placa cfg env placa w) = Raise e ->
     result r = Return tt /\
     replies (trace r) = [InlineErroConsulta] /\
     cache_inline (final r) = cache_inline w).
Proof.
  intros r. subst r. unfold handle_inline_query.
  destruct (PyStr.strip query) as [|c q] eqn:Hs.
  { split; [simpl; lia|]. by intros placa plate_type e _ Hq. }
  set (placa := normalize_plate (String c q)).
  destruct (negb (PyStr.len placa =? 7)%Z) eqn:Hlen.
  { split; [simpl; lia|]. intros placa' plate_type e -> _ Hl.
    fold placa in Hl. by rewrite Hl in Hlen. }
  rewrite (bind_return _ _ _ _ _ _ (validate_run placa w)).
  destruct (validate_plate placa) as [[] plate_type] eqn:Hvalid; cbn [negb].
  2:{ split; [simpl; lia|]. intros placa' plate_type' e -> _ _ Hv.
      fold placa in Hv. congruence. }
  erewrite (bind_return (cache_contains _ _)) by reflexivity.
  rewrite contains_cached. fold (inline_cache_key placa).
  pose proof (inline_tier_frame cfg env placa w) as Hframe.
  destruct (cached Inline (inline_cache_key placa) w) as [v|] eqn:Hc.
  - rewrite bool_decide_true by done.
    rewrite (bind_return _ _ _ _ _ _ (cache_getitem_hit _ _ _ _ Hc)).
    split; [|by intros placa' plate_type' e -> _ _ _ Hn; fold placa in Hn;
              congruence].
    unfold responder_inline, formatar_mensagem_otimizada, bind, lift.
    destruct (py_in "erro" v) as [[]|]; [| |cbn; lia];
      destruct (get_method v) as [[]|]; cbn; lia.
  - rewrite bool_decide_false by (by intros []).
    unfold try_except, bind.
    pose proof (lookup_no_reply cfg env placa w) as Hnr.
    destruct (consultar_placa cfg env placa w) as [[v|e] w3 t3] eqn:Hrun;
      simpl in Hnr, Hframe.
    + split; [|intros placa' plate_type' e' -> _ _ _ _ Hn; fold placa in Hn;
               rewrite Hrun in Hn; discriminate Hn].
      unfold responder_inline, formatar_mensagem_otimizada, lift.
      destruct (py_in "erro" v) as [[]|e] eqn:Hin; cbn;
        rewrite ?Hin; cbn; [| |rewrite !replies_app, Hnr; cbn; lia];
        destruct (get_method v) as [[]|]; cbn;
        rewrite !replies_app, Hnr; cbn; lia.
    + cbn. split; [rewrite !replies_app, Hnr; cbn; lia|].
      intros placa' plate_type' e' -> _ _ _ _ _.
      split; [done|]. split; [|done].
      by rewrite !replies_app, Hnr.
Qed.

(** ** The two surfaces share the results tier *)

Lemma consultar_placa_record_run cfg env placa w v :
  cached Principal (cache_key placa) w = None ->
  cached Erros (error_key placa) w = None ->
  result (consultar_api_principal cfg env placa w) = Return v ->
  is_record v ->
  consultar_placa cfg env placa w =
  mkRun (Return v)
    (store Principal (cache_key placa) v
       (advance (elapsed (net env (principal_url cfg placa))) w))
    (prelude cfg placa ++ [EvCache Principal (cache_key placa)]).
Proof.
  intros Hp He Hv Hrec.
  rewrite (consultar_placa_miss cfg env placa w v Hp He Hv).
  by rewrite (wants_fallback_record v Hrec), Hrec.
Qed.

Lemma cached_principal_after_inline_store k k' v' w d :
  cached Principal k (advance d (store Inline k' v' w)) =
  cached Principal k (advance d w).
Proof. done. Qed.

(** X17. An inline query answered by the primary with a record (a JSON object
    without ["erro"]) fills the results tier as well as the inline tier, so a message for the same
    plate that reaches its lookup before the 30 minutes of the results
    tier have passed is answered from the cache: it reads the results
    tier and sends the formatted record, with no adapter invoked and no
    request sent. *)
Theorem message_after_inline_query_hits_cache (cfg : Config) (env env' : Env)
    (query text placa plate_type : string) (v : json) (w : World) (d : N) :
  placa = normalize_plate (PyStr.strip query) ->
  PyStr.strip query <> "" ->
  PyStr.len placa = 7%Z ->
  validate_plate placa = (true, plate_type) ->
  cached Inline (inline_cache_key placa) w = None ->
  cached Principal (cache_key placa) w = None ->
  cached Erros (error_key placa) w = None ->
  result (consultar_api_principal cfg env placa w) = Return v ->
  is_dict v ->
  is_record v ->
  text <> "" ->
  (7 <= PyStr.len (PyStr.strip text) <= 8)%Z ->
  normalize_plate (PyStr.strip text) = placa ->
  let w1 := final (handle_inline_query cfg env (Some query) w) in
  (Z.of_N (telegram env (InlineResultado v placa plate_type)) + Z.of_N d
   + Z.of_N (telegram env' (Consultando placa plate_type))
   < tier_ttl Principal)%Z ->
  cached Principal (cache_key placa) w1 = Some v /\
  trace (handle_message cfg env' (Some text) (advance d w1)) =
    [EvValidate placa; EvReply (Consultando placa plate_type);
     EvCache Principal (cache_key placa); EvCache Principal (cache_key placa);
     EvReply ApagaConsultando; EvReply (RespostaResultado v plate_type)].
Proof.
  intros Hplaca Hq Hlen Hvalid Hi Hp He Hv Hd Hrec Htext Hgate Hnorm w1 Httl.
  pose proof (consultar_placa_record_run cfg env placa w v Hp He Hv Hrec) as Hrun.
  set (wl := advance (elapsed (net env (principal_url cfg placa))) w) in *.
  assert (Hw1 : w1 =
    advance (telegram env (InlineResultado v placa plate_type))
      (store Inline (inline_cache_key placa) v
         (store Principal (cache_key placa) v wl))).
  { subst w1. unfold handle_inline_query.
    destruct (PyStr.strip query) as [|c q]; [done|].
    rewrite <- Hplaca, Hlen. cbn [Z.eqb Pos.eqb negb].
    rewrite (bind_return _ _ _ _ _ _ (validate_run placa w)).
    rewrite Hvalid. cbn [negb final]. fold (inline_cache_key placa).
    erewrite (bind_return (cache_contains _ _)) by reflexivity.
    rewrite contains_cached, Hi, bool_decide_false by (by intros []).
    cbn [final]. unfold try_except, bind. rewrite Hrun.
    unfold lift. rewrite Hrec. cbn [negb]. unfold cache_setitem, ret.
    cbv beta iota.
    by rewrite responder_inline_record, (get_method_dict v Hd). }
  assert (Hpos : (0 <= Z.of_N (telegram env'
                     (Consultando placa plate_type)))%Z) by lia.
  split_and!.
  - rewrite Hw1, cached_principal_after_inline_store.
    apply cached_store. lia.
  - destruct text as [|c text]; [done|]. unfold handle_message.
    rewrite gate_message, bool_decide_false by tauto.
    rewrite Hnorm.
    erewrite trace_bind by apply validate_run.
    rewrite Hvalid. cbn [negb].
    erewrite trace_bind by reflexivity.
    unfold try_except, bind.
    rewrite (consultar_placa_hit_principal cfg env' placa _ v).
    + unfold responder_mensagem, formatar_mensagem_otimizada, send, lift.
      rewrite Hrec, (get_method_dict v Hd). by cbn.
    + rewrite Hw1, !advance_advance, cached_principal_after_inline_store.
      apply cached_store. lia.
Qed.

(** ** The further statements on the scenarios *)

Lemma lookup_without_fallback_witness :
  let r := consultar_placa Scenario.cfg Scenario.primary_ok "ABC1234"
             (initial_world 0) in
  result (consultar_api_principal Scenario.cfg Scenario.primary_ok "ABC1234"
            (initial_world 0)) = Return Scenario.civic /\
  is_record Scenario.civic /\
  result r = Return Scenario.civic /\
  cached Principal (cache_key "ABC1234") (final r) = Some Scenario.civic.
Proof.
  intros r. split; [reflexivity|]. split; [reflexivity|].
  destruct (lookup_without_fallback Scenario.cfg Scenario.primary_ok "ABC1234"
              (initial_world 0) Scenario.civic eq_refl eq_refl eq_refl)
    as (H & _).
  destruct (H eq_refl) as (Hr & _ & Hc & _).
  split; [exact Hr | exact Hc].
Defined.

Lemma lookup_after_expiry_witness :
  let v := failure "not_found" "🔍 Placa não encontrada na base de dados" in
  let r := consultar_placa Scenario.cfg Scenario.primary_404 "ABC1234"
             (initial_world 0) in
  result r = Return v /\
  exists t, (t = Principal /\ is_record v \/ t = Erros /\ is_failure v) /\
    forall (env' : Env) (d : N), (tier_ttl t <= Z.of_N d)%Z ->
      exists rest,
        trace (consultar_placa Scenario.cfg env' "ABC1234" (advance d (final r)))
        = prelude Scenario.cfg "ABC1234" ++ rest.
Proof.
  intros v r. split; [reflexivity|].
  exact (lookup_after_expiry Scenario.cfg Scenario.primary_404 "ABC1234"
           (initial_world 0) v eq_refl eq_refl eq_refl).
Defined.

Lemma inline_query_answered_at_most_once_witness :
  let r := handle_inline_query Scenario.cfg Scenario.primary_number
             (Some "abc-1234") (initial_world 0) in
  result (consultar_placa Scenario.cfg Scenario.primary_number "ABC1234"
            (initial_world 0)) = Raise TypeError /\
  result r = Return tt /\ replies (trace r) = [InlineErroConsulta].
Proof.
  intros r. split; [reflexivity|].
  destruct (inline_query_answered_at_most_once Scenario.cfg
              Scenario.primary_number "abc-1234" (initial_world 0)) as (_ & H).
  destruct (H "ABC1234" "antiga" TypeError) as (Hr & Ht & _);
    [reflexivity | discriminate | reflexivity | reflexivity | reflexivity
    | reflexivity |].
  split; [exact Hr | exact Ht].
Defined.

Lemma message_after_inline_query_hits_cache_witness :
  let w1 := final (handle_inline_query Scenario.cfg Scenario.primary_ok
                     (Some "abc-1234") (initial_world 0)) in
  normalize_plate (PyStr.strip "ABC1234") = "ABC1234" /\
  validate_plate "ABC1234" = (true, "antiga") /\
  is_record Scenario.civic /\
  trace (handle_message Scenario.cfg Scenario.all_down (Some "ABC1234")
           (advance 60000 w1)) =
    [EvValidate "ABC1234"; EvReply (Consultando "ABC1234" "antiga");
     EvCache Principal (cache_key "ABC1234");
     EvCache Principal (cache_key "ABC1234");
     EvReply ApagaConsultando;
     EvReply (RespostaResultado Scenario.civic "antiga")].
Proof.
  intros w1. split; [reflexivity|]. split; [reflexivity|]. split; [reflexivity|].
  refine (proj2 (message_after_inline_query_hits_cache Scenario.cfg
            Scenario.primary_ok Scenario.all_down "abc-1234" "ABC1234" "ABC1234"
            "antiga" Scenario.civic (initial_world 0) 60000
            eq_refl _ eq_refl eq_refl eq_refl eq_refl eq_refl eq_refl _ eq_refl
            _ _ eq_refl _)).
  - discriminate.
  - by eexists.
  - discriminate.
  - vm_compute. split; discriminate.
  - vm_compute. reflexivity.
Defined.
